(** * Chatbot corpus builder: the ingest and export pipeline of the notebook

    A shallow embedding of the Python code cells of [Documentation.ipynb]:
    the record normalizer [format_data], the filter [acceptable], the two
    lookups, the three statement builders, the write buffer
    [transaction_bldr], the ingest loop and the export loop.

    Conventions.
    - Python [str] is [string]; [len] is [String.length].
    - Python [int] is [Z].
    - A line of the dump is the object [json.loads] returns for it, its
      values being texts or integers; the loop tests no type, so each
      value is used as Python would use it.
    - A Python value that is either a result or [False] is an [option].
    - An uncaught exception ends a loop with [Raised]; the state it carries
      is the state of the globals when the exception left the loop.
    - The SQLite table is the list of its rows in insertion order.  A
      statement text is kept as what SQLite makes of it: the column values
      of an INSERT, the assignments of the UPDATE with a marker for each
      [?] parameter.
    - The statement builders splice their values into the text.  SQL is
      not parsed here: a text whose values are plain (no character that
      ends the quoted literal, integers that SQLite keeps as integers) is
      the statement it looks like, and what SQLite makes of any other text
      is a parameter of the development, the [library]. *)

From Stdlib Require Import ZArith String Ascii List Lia Bool DecimalString.
From stdpp Require Import base list strings gmap.

Open Scope string_scope.

(** ** Python string methods *)

Module PyStr.

(** The characters the code names by escape sequences. *)
Definition LF : ascii := ascii_of_nat 10.
Definition CR : ascii := ascii_of_nat 13.
Definition TAB : ascii := ascii_of_nat 9.
Definition VT : ascii := ascii_of_nat 11.
Definition FF : ascii := ascii_of_nat 12.
Definition DQUOTE : ascii := ascii_of_nat 34.
Definition SQUOTE : ascii := ascii_of_nat 39.
Definition SPACE : ascii := ascii_of_nat 32.
Definition QMARK : ascii := ascii_of_nat 63.
Definition NUL : ascii := ascii_of_nat 0.

(** [s.startswith(p)] *)
Fixpoint startswith (p s : string) : bool :=
  match p, s with
  | EmptyString, _ => true
  | String a p', String b s' => Ascii.eqb a b && startswith p' s'
  | String _ _, EmptyString => false
  end.

(** [old in s] *)
Fixpoint occurs (old s : string) : bool :=
  startswith old s ||
  match s with
  | EmptyString => false
  | String _ s' => occurs old s'
  end.

(** [c in s] for one character *)
Fixpoint has_char (c : ascii) (s : string) : bool :=
  match s with
  | EmptyString => false
  | String d s' => Ascii.eqb c d || has_char c s'
  end.

(** [s.count(c)] for one character *)
Fixpoint count_char (c : ascii) (s : string) : nat :=
  match s with
  | EmptyString => 0
  | String d s' => (if Ascii.eqb c d then 1 else 0) + count_char c s'
  end.

(** The scan of [s.replace(old, new)] for a non-empty [old]: left to
    right, every occurrence that does not overlap an earlier one is
    replaced.  [skip] is the number of characters of the occurrence
    just replaced that are still to be passed over. *)
Fixpoint replace_scan (old new : string) (skip : nat) (s : string) : string :=
  match s with
  | EmptyString => EmptyString
  | String c s' =>
      match skip with
      | S k => replace_scan old new k s'
      | O =>
          if startswith old s
          then String.append new (replace_scan old new (String.length old - 1) s')
          else String c (replace_scan old new 0 s')
      end
  end.

(** [s.replace('', new)] puts [new] before every character and at the end. *)
Fixpoint replace_empty (new s : string) : string :=
  match s with
  | EmptyString => new
  | String c s' => String.append new (String c (replace_empty new s'))
  end.

(** [s.replace(old, new)] *)
Definition replace (old new s : string) : string :=
  match old with
  | EmptyString => replace_empty new s
  | String _ _ => replace_scan old new 0 s
  end.

(** [s.split(sep)] for a separator of one character: the pieces between
    the separators, empty pieces included. *)
Fixpoint split (sep : ascii) (s : string) : list string :=
  match s with
  | EmptyString => [EmptyString]
  | String c s' =>
      if Ascii.eqb c sep then EmptyString :: split sep s'
      else match split sep s' with
           | piece :: pieces => String c piece :: pieces
           | [] => [String c EmptyString]
           end
  end.


End PyStr.

(** ** 4.1 Record normalizer *)

Definition newlinechar : string := " newlinechar ".

(** [def format_data(data)] *)
Definition format_data (data : string) : string :=
  PyStr.replace (String PyStr.DQUOTE (String PyStr.DQUOTE EmptyString))
                (String PyStr.SQUOTE EmptyString)
    (PyStr.replace (String PyStr.CR EmptyString) newlinechar
       (PyStr.replace (String PyStr.LF EmptyString) newlinechar data)).

(** ** 4.2 Acceptability filter *)

(** [def acceptable(data)] *)
Definition acceptable (data : string) : bool :=
  if (50 <? length (PyStr.split " " data))%nat || (String.length data <? 1)%nat then false
  else if (1000 <? String.length data)%nat then false
  else if String.eqb data "[deleted]" then false
  else if String.eqb data "[removed]" then false
  else true.

Open Scope list_scope.

(** ** 6. The table [parent_reply] as SQLite keeps it *)

Module Sqlite.

(** [CREATE TABLE IF NOT EXISTS parent_reply(parent_id TEXT PRIMARY KEY,
    comment_id TEXT UNIQUE, parent TEXT, comment TEXT, subreddit TEXT,
    unix INT, score INT)].  [parent] and [comment] may be NULL: the
    INSERT of a row without parent leaves [parent] NULL, and a statement
    text can be made to store NULL as the comment.  The other columns
    are kept as the texts and integers the builders give them. *)
Record row := mkRow {
  parent_id : string;
  comment_id : string;
  parent : option string;
  comment : option string;
  subreddit : string;
  unix : Z;
  score : Z
}.

Definition table := list row.

(** A value position of a statement: a literal, or the parameter [?]. *)
Inductive sql_arg (A : Type) : Type :=
| Lit (a : A)
| Param.
Arguments Lit {A} a.
Arguments Param {A}.

(** [UPDATE parent_reply SET parent_id = _, comment_id = _, parent = _,
    comment = _, subreddit = _, unix = _, score = _ WHERE parent_id = _] *)
Record update_values := mkUpdate {
  set_parent_id : sql_arg string;
  set_comment_id : sql_arg string;
  set_parent : sql_arg (option string);
  set_comment : sql_arg (option string);
  set_subreddit : sql_arg string;
  set_unix : sql_arg Z;
  set_score : sql_arg Z;
  where_parent_id : sql_arg string
}.

(** [INSERT r] is the text of one of the two INSERT builders with the
    column values of [r] spliced in, the text values between double
    quotes. *)
Inductive sql_stmt : Type :=
| INSERT (r : row)
| UPDATE (u : update_values).

(** A text value that SQLite reads back as it was spliced in between
    double quotes: one without a double quote, which would end the
    literal, and without the character of code 0, on which the Python
    module rejects the text. *)
Definition quotable (s : string) : bool :=
  negb (PyStr.has_char PyStr.DQUOTE s) && negb (PyStr.has_char PyStr.NUL s).

(** An integer that SQLite stores as an integer: one of 64 bits.  A
    larger literal is stored as a floating-point number. *)
Definition sql_integer (z : Z) : bool :=
  (- 2 ^ 63 <=? z)%Z && (z <? 2 ^ 63)%Z.

(** A row whose INSERT text is the statement it looks like. *)
Definition plain_row (r : row) : bool :=
  quotable (parent_id r) && quotable (comment_id r) &&
  match parent r with Some p => quotable p | None => true end &&
  match comment r with Some c => quotable c | None => true end &&
  quotable (subreddit r) && sql_integer (unix r) && sql_integer (score r).

(** INSERT of the values of a row: refused on a taken [parent_id]
    (PRIMARY KEY) and on a taken [comment_id] (UNIQUE). *)
Definition insert_row (r : row) (t : table) : option table :=
  if existsb (fun x => String.eqb (parent_id x) (parent_id r)) t then None
  else if existsb (fun x => String.eqb (comment_id x) (comment_id r)) t then None
  else Some (t ++ [r]).

Definition keys_unique (t : table) : bool :=
  bool_decide (NoDup (parent_id <$> t)) && bool_decide (NoDup (comment_id <$> t)).

(** UPDATE with every value given: the rows matched by the WHERE clause
    take the new values, unless a key would then be taken twice. *)
Definition update_rows (r : row) (key : string) (t : table) : option table :=
  let t' := (fun x => if String.eqb (parent_id x) key then r else x) <$> t in
  if keys_unique t' then Some t' else None.

(** The values of an UPDATE when none of them is a parameter. *)
Definition bound (u : update_values) : option (row * string) :=
  match set_parent_id u, set_comment_id u, set_parent u, set_comment u,
        set_subreddit u, set_unix u, set_score u, where_parent_id u with
  | Lit a, Lit b, Lit c, Lit d, Lit e, Lit f, Lit g, Lit k =>
      Some (mkRow a b c d e f g, k)
  | _, _, _, _, _, _, _, _ => None
  end.



(** The lookups splice the identifier in between single quotes: it is
    read back as it was when it holds no single quote and no character
    of code 0. *)
Definition sql_literal (s : string) : bool :=
  negb (PyStr.has_char PyStr.SQUOTE s) && negb (PyStr.has_char PyStr.NUL s).

(** [ORDER BY unix ASC], rows of equal [unix] in table order. *)
Fixpoint insert_by_unix (r : row) (l : list row) : list row :=
  match l with
  | [] => [r]
  | x :: l' => if (unix r <? unix x)%Z then r :: l else x :: insert_by_unix r l'
  end.

Definition order_by_unix (l : list row) : list row :=
  foldr insert_by_unix [] (reverse l).

End Sqlite.

Import Sqlite.

(** ** The libraries outside the modelled cases *)

(** What Python and SQLite do where the development does not work it out.
    - [py_int s] is [int(s)] on a text: the integer, or [None] for the
      [ValueError].
    - [insert_text r t] is [c.execute] on the INSERT text of a row [r]
      that is not plain, the table holding [t]: the table afterwards, or
      [None] when the call raises.  The text may store other values than
      those of [r], and may change rows already stored.
    - [select_comment pid t] and [select_score pid t] are what
      [find_parent] and [find_existing_score] return for an identifier
      [pid] that is not read back as it was. *)
Record library := mkLibrary {
  py_int : string -> option Z;
  insert_text : row -> table -> option table;
  select_comment : string -> table -> option string;
  select_score : string -> table -> option Z
}.

(** ** 4.3 - 4.6 Ingest *)


(** What SQLite reads in [update_sql]: every value is a parameter. *)
Definition update_stmt : sql_stmt :=
  UPDATE (mkUpdate Param Param Param Param Param Param Param Param).

(** Python exceptions that leave the loops. *)
Inductive exn : Type :=
| KeyError (key : string)
| TypeError
| IndexError
| AttributeError.

Inductive result (A : Type) : Type :=
| Ok (a : A)
| Raise (e : exn).
Arguments Ok {A} a.
Arguments Raise {A} e.

#[global] Instance result_ret : MRet result := fun A a => Ok a.
#[global] Instance result_bind : MBind result := fun A B f m =>
  match m with
  | Ok a => f a
  | Raise e => Raise e
  end.

(** A value of the object [json.loads(row)]: a text or an integer.  The
    loop makes no test of the type of what it reads. *)
Inductive jvalue : Type :=
| JStr (s : string)
| JInt (z : Z).

(** [str(v)], which is what the field [{}] of [.format] puts in a text. *)
Definition text_of (v : jvalue) : string :=
  match v with
  | JStr s => s
  | JInt z => NilZero.string_of_int (Z.to_int z)
  end.

(** [row[key]] *)
Definition getitem (row : gmap string jvalue) (key : string) : result jvalue :=
  match row !! key with
  | Some v => Ok v
  | None => Raise (KeyError key)
  end.

(** [format_data(v)]: a value that is not text has no method [replace]. *)
Definition format_body (v : jvalue) : result string :=
  match v with
  | JStr s => Ok (format_data s)
  | JInt _ => Raise AttributeError
  end.

(** The value of [score] in [score >= 2]: a text is not ordered with an
    integer. *)
Definition compared (v : jvalue) : result Z :=
  match v with
  | JInt z => Ok z
  | JStr _ => Raise TypeError
  end.

(** The globals of the ingest cells: the table behind the cursor [c], the
    list [sql_transaction], the two counters, and the progress lines
    printed (the two counters of each line). *)
Record state := mkState {
  table_of : table;
  sql_transaction : list sql_stmt;
  row_counter : Z;
  paired_rows : Z;
  stdout : list (Z * Z)
}.

Inductive outcome : Type :=
| Done (st : state)
| Raised (e : exn) (st : state).

Definition final (o : outcome) : state :=
  match o with
  | Done st => st
  | Raised _ st => st
  end.

(** The fields read from one line, in the order the loop reads them.  The
    three identifiers are kept as the text [.format] makes of them. *)
Record fields := mkFields {
  f_parent_id : string;
  f_body : string;
  f_created_utc : jvalue;
  f_score : Z;
  f_comment_id : string;
  f_subreddit : string
}.

(** The six reads of the loop body.  The comparison [score >= 2] comes
    after the six reads and after [find_parent], which changes nothing;
    the [TypeError] it raises on a text is given here with the reads. *)
Definition read_fields (row : gmap string jvalue) : result fields :=
  parent_id ← getitem row "parent_id";
  body ← getitem row "body";
  body ← format_body body;
  created_utc ← getitem row "created_utc";
  score ← getitem row "score";
  comment_id ← getitem row "name";
  subreddit ← getitem row "subreddit";
  score ← compared score;
  mret (mkFields (text_of parent_id) body created_utc score (text_of comment_id)
          (text_of subreddit)).

Section WithLibrary.

Variable lib : library.

(** [c.execute(s)]: no bindings are handed over, so a statement with a
    parameter raises [sqlite3.ProgrammingError]; [None] is any raised
    exception, and the table is then as before. *)
Definition execute (s : sql_stmt) (t : table) : option table :=
  match s with
  | INSERT r => if plain_row r then insert_row r t else insert_text lib r t
  | UPDATE u =>
      match bound u with
      | Some (r, key) => update_rows r key t
      | None => None
      end
  end.

(** The loop of [transaction_bldr]: each statement is executed, one that
    raises is passed over. *)
Definition execute_all (stmts : list sql_stmt) (t : table) : table :=
  fold_left (fun t s => match execute s t with Some t' => t' | None => t end) stmts t.

(** [def transaction_bldr(sql)] *)
Definition transaction_bldr (sql : sql_stmt) (st : state) : state :=
  let sql_transaction' := sql_transaction st ++ [sql] in
  if (1000 <? length sql_transaction')%nat then
    mkState (execute_all sql_transaction' (table_of st)) []
            (row_counter st) (paired_rows st) (stdout st)
  else
    mkState (table_of st) sql_transaction'
            (row_counter st) (paired_rows st) (stdout st).

(** [def find_parent(pid)]: [SELECT comment FROM parent_reply WHERE
    comment_id = '<pid>' LIMIT 1].  The result is the comment text;
    [None] is [False] (no row, or an exception caught) and also the
    [None] of a NULL comment: the loop only tests the value and uses it
    when it is true. *)
Definition find_parent (c : table) (pid : string) : option string :=
  if sql_literal pid then
    match find (fun r => String.eqb (comment_id r) pid) c with
    | Some r => comment r
    | None => None
    end
  else select_comment lib pid c.

(** [def find_existing_score(pid)]: [SELECT score FROM parent_reply WHERE
    parent_id = '<pid>' LIMIT 1]; the score, or [False]. *)
Definition find_existing_score (c : table) (pid : string) : option Z :=
  if sql_literal pid then
    match find (fun r => String.eqb (parent_id r) pid) c with
    | Some r => Some (score r)
    | None => None
    end
  else select_score lib pid c.

(** Truth value of what [find_existing_score] returned. *)
Definition truthy_int (v : option Z) : bool :=
  match v with
  | Some z => negb (z =? 0)%Z
  | None => false
  end.

(** Truth value of what [find_parent] returned. *)
Definition truthy_str (v : option string) : bool :=
  match v with
  | Some s => negb (String.eqb s "")
  | None => false
  end.

(** [int(created_utc)] in the argument list of [.format]; [None] for the
    [ValueError] of a text that is no numeral. *)
Definition python_int (v : jvalue) : option Z :=
  match v with
  | JInt z => Some z
  | JStr s => py_int lib s
  end.

(** [def sql_insert_replace_comment(...)]: [update_sql] has no replacement
    field, so [.format] returns it as it is, whatever the arguments.  An
    exception of [int(created_utc)] is caught, its message printed (not
    recorded here), and nothing is handed over. *)
Definition sql_insert_replace_comment
    (comment_id parent_id : string) (parent : option string)
    (comment subreddit : string) (created_utc : jvalue) (score : Z) (st : state) : state :=
  match python_int created_utc with
  | Some _ => transaction_bldr update_stmt st
  | None => st
  end.

(** [def sql_insert_has_parent(...)], with the same [try] and [except]. *)
Definition sql_insert_has_parent
    (comment_id parent_id parent comment subreddit : string)
    (created_utc : jvalue) (score : Z) (st : state) : state :=
  match python_int created_utc with
  | Some unix =>
      transaction_bldr
        (INSERT (mkRow parent_id comment_id (Some parent) (Some comment) subreddit unix score)) st
  | None => st
  end.

(** [def sql_insert_no_parent(comment_id, parent_id, comment, subreddit,
    time, score)], with the same [try] and [except].  The text does not
    use the parameter [time]: it takes [int(created_utc)] from the global
    [created_utc], given here as the last argument but one. *)
Definition sql_insert_no_parent
    (comment_id parent_id comment subreddit : string)
    (time : jvalue) (score : Z) (created_utc : jvalue) (st : state) : state :=
  match python_int created_utc with
  | Some unix =>
      transaction_bldr
        (INSERT (mkRow parent_id comment_id None (Some comment) subreddit unix score)) st
  | None => st
  end.

Definition count_row (st : state) : state :=
  mkState (table_of st) (sql_transaction st) (row_counter st + 1) (paired_rows st) (stdout st).

Definition count_pair (st : state) : state :=
  mkState (table_of st) (sql_transaction st) (row_counter st) (paired_rows st + 1) (stdout st).

(** [if row_counter % 100000 == 0: print(...)] *)
Definition progress (st : state) : state :=
  if (row_counter st mod 100000 =? 0)%Z
  then mkState (table_of st) (sql_transaction st) (row_counter st) (paired_rows st)
               (stdout st ++ [(row_counter st, paired_rows st)])
  else st.

(** The [if score >= 2:] block of the loop; the global [created_utc] is
    the field just read. *)
Definition select_write (f : fields) (st : state) : state :=
  let parent_data := find_parent (table_of st) (f_parent_id f) in
  if (2 <=? f_score f)%Z then
    let existing_comment_score := find_existing_score (table_of st) (f_parent_id f) in
    if truthy_int existing_comment_score then
      if (default 0%Z existing_comment_score <? f_score f)%Z then
        if acceptable (f_body f) then
          sql_insert_replace_comment (f_comment_id f) (f_parent_id f) parent_data
            (f_body f) (f_subreddit f) (f_created_utc f) (f_score f) st
        else st
      else st
    else
      if acceptable (f_body f) then
        if truthy_str parent_data then
          count_pair
            (sql_insert_has_parent (f_comment_id f) (f_parent_id f) (default "" parent_data)
               (f_body f) (f_subreddit f) (f_created_utc f) (f_score f) st)
        else
          sql_insert_no_parent (f_comment_id f) (f_parent_id f)
            (f_body f) (f_subreddit f) (f_created_utc f) (f_score f) (f_created_utc f) st
      else st
  else st.

(** The body of [for row in f:]. *)
Definition loop_body (row : gmap string jvalue) (st : state) : outcome :=
  let st := count_row st in
  match read_fields row with
  | Raise e => Raised e st
  | Ok f => Done (progress (select_write f st))
  end.

(** [for row in f:] over the parsed lines of the dump. *)
Fixpoint ingest (rows : list (gmap string jvalue)) (st : state) : outcome :=
  match rows with
  | [] => Done st
  | row :: rows' =>
      match loop_body row st with
      | Done st' => ingest rows' st'
      | Raised e st' => Raised e st'
      end
  end.

(** The globals when the ingest cell starts on a database holding [t]. *)
Definition start (t : table) : state := mkState t [] 0 0 [].

(** The statement handed to [transaction_bldr] while [row] is processed in
    state [st], if any: what processing leaves in an empty buffer. *)
Definition written (row : gmap string jvalue) (st : state) : list sql_stmt :=
  sql_transaction
    (final (loop_body row (mkState (table_of st) [] (row_counter st) (paired_rows st) (stdout st)))).

(** All statements handed to [transaction_bldr] during a run, in order. *)
Fixpoint enqueued (rows : list (gmap string jvalue)) (st : state) : list sql_stmt :=
  match rows with
  | [] => []
  | row :: rows' =>
      written row st ++
      match loop_body row st with
      | Done st' => enqueued rows' st'
      | Raised _ _ => []
      end
  end.

(** ** 4.7 Corpus export *)

(** The four text files, each as the list of the strings written to it. *)
Record files := mkFiles {
  test_from : list string;
  test_to : list string;
  train_from : list string;
  train_to : list string
}.

(** The variables of the export cell. *)
Record export_state := mkExport {
  last_unix : Z;
  cur_length : nat;
  counter : Z;
  test_done : bool;
  disk : files;
  export_stdout : list Z
}.

Inductive export_outcome : Type :=
| Exported (st : export_state)
| ExportRaised (e : exn) (st : export_state)
| OutOfFuel (st : export_state).

Definition newline : string := String PyStr.LF EmptyString.

(** [limit = 5000] *)
Definition limit : nat := 5000.

(** [pd.read_sql("SELECT * FROM parent_reply WHERE unix > {} AND parent NOT
    NULL AND score > 0 ORDER BY unix ASC LIMIT {}".format(last_unix, limit),
    connection)] *)
Definition read_sql (last_unix : Z) (limit : nat) (t : table) : list row :=
  take limit
    (order_by_unix
       (List.filter
          (fun r => (last_unix <? unix r)%Z && bool_decide (parent r ≠ None) && (0 <? score r)%Z)
          t)).

(** [for content in df['parent'].values: f.write(content+'\n')]: the file
    after the loop, and the [TypeError] of [None + '\n'] if a value is
    NULL. *)
Fixpoint write_parents (df : list row) (file : list string) : list string * option exn :=
  match df with
  | [] => (file, None)
  | r :: df' =>
      match parent r with
      | Some content => write_parents df' (file ++ [String.append content newline])
      | None => (file, Some TypeError)
      end
  end.

(** The loop of the held-out split over the replies, [for content in
    df['comment'].values: f.write(content+'\n')]: it stops with the
    [TypeError] of [None + '\n'] at a NULL comment, what was written
    before staying in the file. *)
Fixpoint write_comments (df : list row) (file : list string) : list string * option exn :=
  match df with
  | [] => (file, None)
  | r :: df' =>
      match comment r with
      | Some content => write_comments df' (file ++ [String.append content newline])
      | None => (file, Some TypeError)
      end
  end.

(** [str(content)] of a column value. *)
Definition py_str (content : option string) : string :=
  match content with
  | Some s => s
  | None => "None"
  end.

(** The loop of the training split over the replies, [for content in
    df['comment'].values: f.write(str(content)+'\n')]. *)
Fixpoint write_comments_str (df : list row) (file : list string) : list string :=
  match df with
  | [] => file
  | r :: df' => write_comments_str df' (file ++ [String.append (py_str (comment r)) newline])
  end.

(** The [if not test_done: ... else: ...] block: one page written to the
    files of its split, the prompt file first. *)
Definition write_page (df : list row) (test_done : bool) (d : files) : files * option exn :=
  if negb test_done then
    match write_parents df (test_from d) with
    | (f, Some e) => (mkFiles f (test_to d) (train_from d) (train_to d), Some e)
    | (f, None) =>
        match write_comments df (test_to d) with
        | (g, e) => (mkFiles f g (train_from d) (train_to d), e)
        end
    end
  else
    match write_parents df (train_from d) with
    | (f, Some e) => (mkFiles (test_from d) (test_to d) f (train_to d), Some e)
    | (f, None) =>
        (mkFiles (test_from d) (test_to d) f (write_comments_str df (train_to d)), None)
    end.

(** One turn of [while cur_length == limit:]. *)
Definition export_body (limit : nat) (t : table) (st : export_state) : export_outcome :=
  let df := read_sql (last_unix st) limit t in
  match last df with
  | None => ExportRaised IndexError st
  | Some r =>
      let last_unix' := unix r in
      let cur_length' := length df in
      match write_page df (test_done st) (disk st) with
      | (d, Some e) =>
          ExportRaised e (mkExport last_unix' cur_length' (counter st) (test_done st) d
                            (export_stdout st))
      | (d, None) =>
          let counter' := (counter st + 1)%Z in
          Exported (mkExport last_unix' cur_length' counter' true d
                      (if (counter' mod 20 =? 0)%Z
                       then export_stdout st ++ [(counter' * Z.of_nat limit)%Z]
                       else export_stdout st))
      end
  end.

(** [while cur_length == limit:] *)
Fixpoint export_loop (fuel : nat) (limit : nat) (t : table) (st : export_state) : export_outcome :=
  match fuel with
  | O => OutOfFuel st
  | S fuel' =>
      if (cur_length st =? limit)%nat then
        match export_body limit t st with
        | Exported st' => export_loop fuel' limit t st'
        | other => other
        end
      else Exported st
  end.

(** The variables before the loop, the files holding [d]. *)
Definition export_start (limit : nat) (d : files) : export_state :=
  mkExport 0 limit 0 false d [].

(** The export cell on the database [t]: every turn but the last takes
    rows of a larger [unix] away from those still to read, so one turn per
    row and one more are enough. *)
Definition export (limit : nat) (t : table) (d : files) : export_outcome :=
  export_loop (S (length t)) limit t (export_start limit d).

(** ** Definitions used to state the properties *)

(** Whether a text starts with a double quote. *)
Definition starts_dquote (s : string) : bool :=
  match s with
  | String c _ => Ascii.eqb PyStr.DQUOTE c
  | EmptyString => false
  end.

(** The characters [str.split()] takes as white space, among the 7-bit
    ones. *)
Definition is_whitespace (c : ascii) : bool :=
  existsb (Ascii.eqb c)
    [PyStr.SPACE; PyStr.TAB; PyStr.LF; PyStr.CR; PyStr.VT; PyStr.FF;
     ascii_of_nat 28; ascii_of_nat 29; ascii_of_nat 30; ascii_of_nat 31].

(** Number of tokens of a white-space split, [len(s.split())]: the maximal
    runs of characters that are not white space.  [in_token] tells whether
    the character before was part of a token. *)
Fixpoint count_tokens (in_token : bool) (s : string) : nat :=
  match s with
  | EmptyString => 0
  | String c s' =>
      if is_whitespace c then count_tokens false s'
      else (if in_token then 0 else 1) + count_tokens true s'
  end.

Definition whitespace_token_count (s : string) : nat := count_tokens false s.

(** The filter as the specification words it: the token count of a
    white-space split is at most 50, the length is between 1 and 1000, and
    the text is neither marker. *)
Definition acceptable_as_specified (data : string) : bool :=
  (whitespace_token_count data <=? 50)%nat &&
  (1 <=? String.length data)%nat && (String.length data <=? 1000)%nat &&
  negb (String.eqb data "[deleted]") && negb (String.eqb data "[removed]").

(** [n] copies of a text, each followed by [sep] except the last. *)
Fixpoint join_copies (sep word : string) (n : nat) : string :=
  match n with
  | O => EmptyString
  | S O => word
  | S n' => String.append word (String.append sep (join_copies sep word n'))
  end.

(** The keys the loop reads from every line. *)
Definition required_keys : list string :=
  ["parent_id"; "body"; "created_utc"; "score"; "name"; "subreddit"].

(** At most one row for a [parent_id]. *)
Definition pk_unique (t : table) : Prop := NoDup (parent_id <$> t).

(** A statement with a parameter left. *)
Definition unbound (s : sql_stmt) : Prop :=
  match s with
  | INSERT _ => True
  | UPDATE u => bound u = None
  end.

(** What [transaction_bldr] does to the table and the buffer. *)
Definition push (s : sql_stmt) (db : table * list sql_stmt) : table * list sql_stmt :=
  let buffer := db.2 ++ [s] in
  if (1000 <? length buffer)%nat then (execute_all buffer db.1, []) else (db.1, buffer).

Definition push_all (stmts : list sql_stmt) (db : table * list sql_stmt) : table * list sql_stmt :=
  fold_left (fun db s => push s db) stmts db.

Definition db_of (st : state) : table * list sql_stmt := (table_of st, sql_transaction st).



(** Sample lines of a dump. *)
Definition line (parent_id name body : string) (score : Z) : gmap string jvalue :=
  <["parent_id" := JStr parent_id]> (<["body" := JStr body]> (<["created_utc" := JInt 1325376000]>
  (<["score" := JInt score]> (<["name" := JStr name]> (<["subreddit" := JStr "AskReddit"]> ∅))))).

Definition line_hello : gmap string jvalue := line "t1_a" "t1_b" "hello" 5.
Definition line_hi : gmap string jvalue := line "t1_a" "t1_c" "hi" 3.
Definition line_low : gmap string jvalue := line "t1_a" "t1_d" "meh" 1.
Definition line_no_score : gmap string jvalue := delete "score" line_hi.

Definition row_hello : row := mkRow "t1_a" "t1_b" None (Some "hello") "AskReddit" 1325376000 5.
Definition row_hi : row := mkRow "t1_a" "t1_c" None (Some "hi") "AskReddit" 1325376000 3.

(** Further replies to [t1_a], told apart by their number: of score 3 and
    of score 5. *)
Definition more_low (n : nat) : gmap string jvalue :=
  line "t1_a" (String.append "t1_l" (NilEmpty.string_of_uint (Nat.to_uint n))) "hi there" 3.

Definition more_high (n : nat) : gmap string jvalue :=
  line "t1_a" (String.append "t1_h" (NilEmpty.string_of_uint (Nat.to_uint n))) "hello there" 5.

(** The row of a table for a [parent_id]. *)
Definition row_for (pid : string) (t : table) : option row :=
  find (fun x => String.eqb (parent_id x) pid) t.

(** The strings a page adds to the prompt file and to the reply file when
    it is written in full, a NULL reply as [str] gives it. *)
Definition prompt_lines (df : list row) : list string :=
  (fun r => String.append (default "" (parent r)) newline) <$> df.

Definition reply_lines (df : list row) : list string :=
  (fun r => String.append (py_str (comment r)) newline) <$> df.

(** Rows still ahead of the cursor [last_unix]. *)
Definition ahead (last_unix : Z) (t : table) : list row :=
  List.filter (fun r => (last_unix <? unix r)%Z) t.

(** A row with a parent text and the timestamp [z]. *)
Definition sample_row (z : Z) : row :=
  mkRow (String.append "t1_p" (NilZero.string_of_int (Z.to_int z)))
        (String.append "t1_c" (NilZero.string_of_int (Z.to_int z)))
        (Some "how are you") (Some "fine") "AskReddit" z 2.

(** [count] such rows, stored with the timestamps [z], [z - 1], ... *)
Fixpoint sample_rows (count : nat) (z : Z) : table :=
  match count with
  | O => []
  | S count' => sample_row z :: sample_rows count' (z - 1)
  end.

(** A table of [count] rows with the timestamps [1 .. count]. *)
Definition sample_table (count : nat) : table := sample_rows count (Z.of_nat count).

Definition no_files : files := mkFiles [] [] [] [].

(** The reply of score 3 and 1000 more of that score, then the reply of
    score 5 and 1000 more of that score, all to [t1_a]: the buffer is
    flushed at the last line of each half.  And the two halves in the
    opposite order. *)
Definition low_then_high : list (gmap string jvalue) :=
  [line_hi] ++ (more_low <$> seq 0 1000) ++ [line_hello] ++ (more_high <$> seq 0 1000).

Definition high_then_low : list (gmap string jvalue) :=
  [line_hello] ++ (more_high <$> seq 0 1000) ++ [line_hi] ++ (more_low <$> seq 0 1000).

(** ** Definitions used to state further properties *)

(** The doubled double quote that [format_data] replaces. *)
Definition doubled_quote : string :=
  String PyStr.DQUOTE (String PyStr.DQUOTE EmptyString).

(** Statements by kind. *)
Definition is_insert (s : sql_stmt) : bool :=
  match s with
  | INSERT _ => true
  | UPDATE _ => false
  end.

(** An INSERT that gives a parent text: the text of [sql_insert_has_parent]. *)
Definition is_paired_insert (s : sql_stmt) : bool :=
  match s with
  | INSERT r => bool_decide (parent r <> None)
  | UPDATE _ => false
  end.

(** The [if score >= 2:] block as the cell before the statement builders
    shows it: the filter comes before the lookup of the stored score, and
    [paired_rows] is not counted yet. *)
Definition select_write_shown (f : fields) (st : state) : state :=
  let parent_data := find_parent (table_of st) (f_parent_id f) in
  if (2 <=? f_score f)%Z then
    if acceptable (f_body f) then
      let existing_comment_score := find_existing_score (table_of st) (f_parent_id f) in
      if truthy_int existing_comment_score then
        if (default 0%Z existing_comment_score <? f_score f)%Z then
          sql_insert_replace_comment (f_comment_id f) (f_parent_id f) parent_data
            (f_body f) (f_subreddit f) (f_created_utc f) (f_score f) st
        else st
      else
        if truthy_str parent_data then
          sql_insert_has_parent (f_comment_id f) (f_parent_id f) (default "" parent_data)
            (f_body f) (f_subreddit f) (f_created_utc f) (f_score f) st
        else
          sql_insert_no_parent (f_comment_id f) (f_parent_id f)
            (f_body f) (f_subreddit f) (f_created_utc f) (f_score f) (f_created_utc f) st
    else st
  else st.

(** A line with all six keys, built from its values. *)
Definition full_line (parent_id body : string) (created_utc score : Z)
    (name subreddit : string) : gmap string jvalue :=
  <["parent_id" := JStr parent_id]> (<["body" := JStr body]>
  (<["created_utc" := JInt created_utc]> (<["score" := JInt score]>
  (<["name" := JStr name]> (<["subreddit" := JStr subreddit]> ∅))))).

(** A reply to the comment [t1_b] of [row_hello]. *)
Definition line_child : gmap string jvalue :=
  full_line "t1_b" "hi back" 1325376100 4 "t1_e" "AskReddit".

Definition row_child : row :=
  mkRow "t1_b" "t1_e" (Some "hello") (Some "hi back") "AskReddit" 1325376100 4.


(** The rows the WHERE clause of [read_sql] lets through. *)
Definition qualifies (last_unix : Z) (r : row) : Prop :=
  (last_unix < unix r)%Z /\ parent r <> None /\ (0 < score r)%Z.

(** Ascending by [unix]. *)
Fixpoint ascending (l : list row) : Prop :=
  match l with
  | [] => True
  | x :: l' => Forall (fun y => (unix x <= unix y)%Z) l' /\ ascending l'
  end.


(** ** Definitions for the values outside the plain ones *)

(** Whether a key has a value. *)
Definition present {A : Type} (v : option A) : bool :=
  match v with
  | Some _ => true
  | None => false
  end.

(** The first key, in the order of the reads, that a line does not have. *)
Definition first_missing (row : gmap string jvalue) : option string :=
  find (fun k => negb (present (row !! k))) required_keys.

(** A statement that can only add a row: an INSERT whose values are
    plain, or an UPDATE with a parameter left, which raises. *)
Definition plain_stmt (s : sql_stmt) : Prop :=
  match s with
  | INSERT r => plain_row r = true
  | UPDATE u => bound u = None
  end.

(** SQLite keeps the PRIMARY KEY constraint whatever the statement. *)
Definition keeps_keys : Prop :=
  forall r t t', pk_unique t -> insert_text lib r t = Some t' -> pk_unique t'.

#[global] Instance row_eq_dec : EqDecision row.
Proof. solve_decision. Defined.

(** A library for the examples: [int] reads plain decimal numerals, and
    every text outside the plain ones raises.  The examples that use it
    stay within the plain values, where no library is asked. *)
Definition strict : library :=
  mkLibrary (fun s => Z.of_int <$> NilZero.int_of_string s)
            (fun _ _ => None) (fun _ _ => None) (fun _ _ => None).







(** A row with a parent text and a NULL comment: what the INSERT text
    stores for a body that reads [" || NULL || "] between its quotes. *)
Definition row_null : row :=
  mkRow "t1_p0" "t1_c0" (Some "how are you") None "AskReddit" 2 2.

(** A line for which [sql_insert_has_parent] is called and catches the
    exception of [int(created_utc)]: the score is at least 2, no score is
    stored for the parent, the body passes, a parent text is found, and
    the value of [created_utc] does not convert.  The list holds the
    line, or nothing. *)
Definition unconverted (row : gmap string jvalue) (st : state) : list (gmap string jvalue) :=
  match read_fields row with
  | Ok f =>
      if (2 <=? f_score f)%Z &&
         negb (truthy_int (find_existing_score (table_of st) (f_parent_id f))) &&
         acceptable (f_body f) &&
         truthy_str (find_parent (table_of st) (f_parent_id f)) &&
         negb (present (python_int (f_created_utc f)))
      then [row] else []
  | Raise _ => []
  end.

(** Those lines over a run. *)
Fixpoint all_unconverted (rows : list (gmap string jvalue)) (st : state)
    : list (gmap string jvalue) :=
  match rows with
  | [] => []
  | row :: rows' =>
      unconverted row st ++
      match loop_body row st with
      | Done st' => all_unconverted rows' st'
      | Raised _ _ => []
      end
  end.

(** Whether a statement is plain, as a test. *)
Definition is_plain (s : sql_stmt) : bool :=
  match s with
  | INSERT r => plain_row r
  | UPDATE u => negb (present (bound u))
  end.

(** A text between double quotes. *)
Definition quoted (s : string) : string :=
  String PyStr.DQUOTE (String.append s (String PyStr.DQUOTE EmptyString)).




(** A body that ends the quoted literal and goes on as SQL: the values
    of a row, an ON CONFLICT clause, and the start of a comment that
    hides the rest of the template. *)
Definition body_upsert : string :=
  String.append "x"
    (String.append (String PyStr.DQUOTE ",")
    (String.append (quoted "s")
    (String.append ",1,2) ON CONFLICT(comment_id) DO UPDATE SET comment="
    (String.append (quoted "rewritten") " --")))).


(** The row whose values [sql_insert_no_parent] splices in for it. *)
Definition row_upsert : row :=
  mkRow "t1_q" "t1_c" None (Some body_upsert) "AskReddit" 1325376000 5.


(** What SQLite does with that text: where a row has the [comment_id]
    [t1_c], its comment becomes the text [rewritten]; otherwise the row
    of the VALUES clause is inserted, unless its [parent_id] is taken. *)
Definition execute_upsert (t : table) : option table :=
  if existsb (fun x => String.eqb (comment_id x) "t1_c") t then
    Some ((fun x => if String.eqb (comment_id x) "t1_c"
                    then mkRow (parent_id x) (comment_id x) (parent x) (Some "rewritten")
                               (subreddit x) (unix x) (score x)
                    else x) <$> t)
  else if existsb (fun x => String.eqb (parent_id x) "t1_q") t then None
  else Some (t ++ [mkRow "t1_q" "t1_c" None (Some "x") "s" 1 2]).

(** A library that knows this one text, and is [strict] otherwise. *)
Definition with_upsert : library :=
  mkLibrary (py_int strict)
            (fun r t => if bool_decide (r = row_upsert) then execute_upsert t else None)
            (select_comment strict) (select_score strict).



(** The reply [row_child] with its time given as a text. *)
Definition line_child_text_time : gmap string jvalue :=
  <["created_utc" := JStr "1325376100"]> line_child.







(** * Properties *)

(** ** Python string methods *)

Section PyStrFacts.
Import PyStr.

Lemma has_char_append c a b :
  has_char c (String.append a b) = has_char c a || has_char c b.
Proof.
  induction a as [|d a IH]; simpl; [reflexivity|].
  rewrite IH. apply orb_assoc.
Qed.

Lemma occurs_char c s : occurs (String c EmptyString) s = has_char c s.
Proof.
  induction s as [|d s IH]; simpl; [reflexivity|].
  rewrite IH. destruct (Ascii.eqb c d); reflexivity.
Qed.

(** A text without the pattern is returned as it is. *)
Lemma replace_scan_absent old new s :
  occurs old s = false -> replace_scan old new 0 s = s.
Proof.
  induction s as [|c s IH]; [reflexivity|].
  intros H. cbn [occurs] in H. apply orb_false_iff in H as [Hhere Hlater].
  cbn [replace_scan]. rewrite Hhere. f_equal. auto.
Qed.

Lemma replace_absent old new s :
  occurs old s = false -> replace old new s = s.
Proof.
  destruct old as [|a old]; intros H.
  - destruct s; discriminate H.
  - now apply replace_scan_absent.
Qed.

(** The scan writes characters of the text and of the replacement only. *)
Lemma replace_scan_no_new_char d old new s :
  has_char d new = false -> has_char d s = false ->
  forall skip, has_char d (replace_scan old new skip s) = false.
Proof.
  intros Hnew. induction s as [|c s IH]; intros Hs skip; [reflexivity|].
  cbn [has_char] in Hs. apply orb_false_iff in Hs as [Hc Hs].
  cbn [replace_scan]. destruct skip as [|k]; [|auto].
  destruct (startswith old (String c s)).
  - rewrite has_char_append, Hnew. simpl. auto.
  - cbn [has_char]. rewrite Hc. simpl. auto.
Qed.

(** Replacing one character removes it, when the replacement is free of it. *)
Lemma replace_scan_char_gone c new s :
  has_char c new = false ->
  has_char c (replace_scan (String c EmptyString) new 0 s) = false.
Proof.
  intros Hnew. induction s as [|d s IH]; [reflexivity|].
  cbn [replace_scan startswith String.length Nat.sub].
  destruct (Ascii.eqb c d) eqn:E; cbn [andb].
  - rewrite has_char_append, Hnew. exact IH.
  - cbn [has_char]. rewrite E. exact IH.
Qed.

End PyStrFacts.

(** ** Record normalizer *)

Section Normalizer.
Import PyStr.

Local Abbreviation dq2 := (String DQUOTE (String DQUOTE EmptyString)).
Local Abbreviation sq := (String SQUOTE EmptyString).


Lemma startswith_dq2 c s :
  startswith dq2 (String c s) = Ascii.eqb DQUOTE c && starts_dquote s.
Proof.
  destruct s as [|d s]; simpl; [reflexivity|].
  now rewrite andb_true_r.
Qed.

(** One step of the scan for the doubled quote. *)
Lemma collapse_step c s :
  replace_scan dq2 sq 0 (String c s) =
  if startswith dq2 (String c s)
  then String SQUOTE (replace_scan dq2 sq 0 (match s with String _ s' => s' | EmptyString => EmptyString end))
  else String c (replace_scan dq2 sq 0 s).
Proof.
  cbn [replace_scan]. destruct (startswith dq2 (String c s)) eqn:E; [|reflexivity].
  rewrite startswith_dq2 in E. apply andb_true_iff in E as [_ E].
  destruct s as [|d s]; [discriminate E|]. reflexivity.
Qed.

(** The output starts with a quote only where the text had a single one. *)
Lemma collapse_head s :
  starts_dquote (replace_scan dq2 sq 0 s) = true ->
  starts_dquote s = true /\ startswith dq2 s = false.
Proof.
  destruct s as [|c s]; [discriminate|].
  rewrite collapse_step. destruct (startswith dq2 (String c s)) eqn:E.
  - simpl. discriminate.
  - simpl. auto.
Qed.

Lemma collapse_no_pair_aux s :
  occurs dq2 (replace_scan dq2 sq 0 s) = false /\
  forall c, occurs dq2 (replace_scan dq2 sq 0 (String c s)) = false.
Proof.
  induction s as [|b s [IH0 IH1]].
  - split; [reflexivity|]. intros c. rewrite collapse_step, startswith_dq2.
    simpl. rewrite andb_false_r. simpl. now rewrite andb_false_r.
  - split; [apply IH1|]. intros c. rewrite collapse_step.
    destruct (startswith dq2 (String c (String b s))) eqn:E.
    + cbn [occurs]. rewrite IH0. reflexivity.
    + cbn [occurs]. rewrite (IH1 b), orb_false_r.
      rewrite startswith_dq2. apply not_true_is_false. intros H.
      apply andb_true_iff in H as [Hc Hhead].
      apply collapse_head in Hhead as [Hb _].
      rewrite startswith_dq2, Hc, Hb in E. discriminate E.
Qed.

(** After the last replacement no doubled quote is left. *)
Lemma collapse_no_pair s : occurs dq2 (replace dq2 sq s) = false.
Proof. apply collapse_no_pair_aux. Qed.

Lemma format_data_no_char c s :
  has_char c newlinechar = false -> has_char c sq = false ->
  (c = LF \/ c = CR) ->
  has_char c (format_data s) = false.
Proof.
  intros Hw Hq Hc. unfold format_data, replace.
  apply replace_scan_no_new_char; [exact Hq|].
  destruct Hc as [-> | ->].
  - apply replace_scan_no_new_char; [exact Hw|].
    now apply replace_scan_char_gone.
  - now apply replace_scan_char_gone.
Qed.

Lemma format_data_no_LF s : has_char LF (format_data s) = false.
Proof. apply format_data_no_char; auto. Qed.

Lemma format_data_no_CR s : has_char CR (format_data s) = false.
Proof. apply format_data_no_char; auto. Qed.

(** C8. [format_data] is idempotent: normalizing a normalized text
    returns it unchanged. *)
Theorem format_data_idempotent (s : string) :
  format_data (format_data s) = format_data s.
Proof.
  set (t := format_data s).
  assert (H1 : replace (String LF EmptyString) newlinechar t = t).
  { apply replace_absent. rewrite occurs_char. apply format_data_no_LF. }
  assert (H2 : replace (String CR EmptyString) newlinechar t = t).
  { apply replace_absent. rewrite occurs_char. apply format_data_no_CR. }
  unfold format_data at 1. fold t. rewrite H1, H2.
  apply replace_absent. apply collapse_no_pair.
Qed.

Example format_data_sample :
  format_data
    (String.append "a" (String LF (String.append "b"
       (String DQUOTE (String DQUOTE (String DQUOTE (String CR "c"))))))) =
  String.append "a newlinechar b'" (String DQUOTE " newlinechar c").
Proof. vm_compute. reflexivity. Qed.

End Normalizer.

(** ** Acceptability filter *)

Section Filter.
Import PyStr.

(** [split] cuts at every separator: one piece more than separators. *)
Lemma length_split sep s : length (split sep s) = S (count_char sep s).
Proof.
  induction s as [|c s IH]; [reflexivity|].
  cbn [split count_char]. rewrite (Ascii.eqb_sym sep c).
  destruct (Ascii.eqb c sep).
  - cbn [length]. now rewrite IH.
  - destruct (split sep s) as [|p ps]; [discriminate IH|]. exact IH.
Qed.

Lemma acceptable_spec (data : string) :
  acceptable data = true <->
  (length (split " " data) <= 50 /\
   1 <= String.length data <= 1000 /\
   data <> "[deleted]" /\ data <> "[removed]")%nat.
Proof.
  unfold acceptable.
  destruct (Nat.ltb_spec 50 (length (split " " data)));
    destruct (Nat.ltb_spec (String.length data) 1);
    destruct (Nat.ltb_spec 1000 (String.length data));
    destruct (String.eqb_spec data "[deleted]");
    destruct (String.eqb_spec data "[removed]");
    cbn [orb]; split; try discriminate; try tauto; try lia.
Qed.

(** C5, as the code has it.  [acceptable] holds exactly when cutting the
    text at every single space gives at most 50 pieces (one more than
    the text has spaces), the length is between 1 and 1000, and the
    text is neither marker.  At the bounds: 50 words with one space
    between them pass and 51 do not, 1000 characters pass and 1001 do
    not, the empty text and the two markers do not pass. *)
Theorem acceptable_by_single_spaces :
  (forall data : string,
      acceptable data = true <->
      (length (split " " data) <= 50 /\
       1 <= String.length data <= 1000 /\
       data <> "[deleted]" /\ data <> "[removed]")%nat) /\
  (forall data : string, length (split " " data) = S (count_char " " data)) /\
  acceptable (join_copies " " "word" 50) = true /\
  acceptable (join_copies " " "word" 51) = false /\
  acceptable (join_copies "" "a" 1000) = true /\
  acceptable (join_copies "" "a" 1001) = false /\
  acceptable "" = false /\
  acceptable "[deleted]" = false /\
  acceptable "[removed]" = false.
Proof.
  split; [exact acceptable_spec|].
  split; [exact (length_split " ")|].
  repeat split; vm_compute; reflexivity.
Qed.

(** C5 as stated does not hold.  Fifty spaces before one letter make one
    token of a white-space split, and the code rejects the text; 51
    words with a tab between them make 51 tokens, and the code accepts
    the text. *)
Lemma acceptable_not_by_whitespace_tokens :
  (whitespace_token_count (String.append (join_copies "" " " 50) "a") = 1%nat /\
   acceptable_as_specified (String.append (join_copies "" " " 50) "a") = true /\
   acceptable (String.append (join_copies "" " " 50) "a") = false) /\
  (whitespace_token_count (join_copies (String TAB EmptyString) "w" 51) = 51%nat /\
   acceptable_as_specified (join_copies (String TAB EmptyString) "w" 51) = false /\
   acceptable (join_copies (String TAB EmptyString) "w" 51) = true).
Proof. repeat split; vm_compute; reflexivity. Qed.

End Filter.

(** ** Ingest: reading a line *)

Section Reading.

Lemma getitem_ok row key v : getitem row key = Ok v -> row !! key = Some v.
Proof.
  unfold getitem. destruct (row !! key); intros H; now inversion H.
Qed.

Lemma getitem_raise row key e :
  getitem row key = Raise e -> e = KeyError key /\ row !! key = None.
Proof.
  unfold getitem. destruct (row !! key); intros H; inversion H; auto.
Qed.

(** A line is read in full only if it has all six keys, a text as body
    and an integer as score; the identifiers are taken as [str] gives
    them, and [created_utc] as it is. *)
Lemma read_fields_ok row f :
  read_fields row = Ok f ->
  (exists v, row !! "parent_id" = Some v /\ f_parent_id f = text_of v) /\
  (exists body, row !! "body" = Some (JStr body) /\ f_body f = format_data body) /\
  row !! "created_utc" = Some (f_created_utc f) /\
  row !! "score" = Some (JInt (f_score f)) /\
  (exists v, row !! "name" = Some v /\ f_comment_id f = text_of v) /\
  (exists v, row !! "subreddit" = Some v /\ f_subreddit f = text_of v).
Proof.
  unfold read_fields, mbind, result_bind, mret, result_ret.
  destruct (getitem row "parent_id") eqn:E1; [|discriminate].
  destruct (getitem row "body") as [[body|?]|] eqn:E2; cbn [format_body]; [|discriminate..].
  destruct (getitem row "created_utc") eqn:E3; [|discriminate].
  destruct (getitem row "score") as [[?|z]|] eqn:E4; cbn [compared];
    [destruct (getitem row "name"); [destruct (getitem row "subreddit")|]; discriminate
    | |discriminate].
  destruct (getitem row "name") eqn:E5; [|discriminate].
  destruct (getitem row "subreddit") eqn:E6; [|discriminate].
  intros H. inversion H; subst f; cbn.
  apply getitem_ok in E1, E2, E3, E4, E5, E6.
  repeat split; eauto.
Qed.

(** The exception of a line that has all six keys: [AttributeError] for
    a body that is not text, [TypeError] for a score that is. *)
Lemma read_fields_typed row e :
  read_fields row = Raise e -> first_missing row = None ->
  (e = AttributeError /\ exists z, row !! "body" = Some (JInt z)) \/
  (e = TypeError /\ exists s, row !! "score" = Some (JStr s)).
Proof.
  unfold read_fields, first_missing, required_keys, getitem,
    mbind, result_bind, mret, result_ret.
  cbn [find].
  destruct (row !! "parent_id"); cbn [present]; [|discriminate].
  destruct (row !! "body") as [[body|z]|]; cbn [format_body present];
    [| intros [= <-] _; left; eauto | discriminate].
  destruct (row !! "created_utc"); cbn [present]; [|discriminate].
  destruct (row !! "score") as [[s|z]|]; cbn [compared present]; [| |discriminate].
  - destruct (row !! "name"); cbn [present]; [|discriminate].
    destruct (row !! "subreddit"); cbn [present]; [|discriminate].
    intros [= <-] _. right; eauto.
  - destruct (row !! "name"); cbn [present]; [|discriminate].
    destruct (row !! "subreddit"); cbn [present]; discriminate.
Qed.

(** The exception of a line that lacks a key: [KeyError] for the first
    key that is missing, in the order of the reads, unless the body is
    read before it and is not text. *)
Lemma read_fields_missing row k :
  first_missing row = Some k ->
  (read_fields row = Raise AttributeError /\
   row !! "parent_id" <> None /\ exists z, row !! "body" = Some (JInt z)) \/
  (read_fields row = Raise (KeyError k) /\
   (row !! "parent_id" = None \/ forall z, row !! "body" <> Some (JInt z))).
Proof.
  unfold read_fields, first_missing, required_keys, getitem,
    mbind, result_bind, mret, result_ret.
  cbn [find].
  destruct (row !! "parent_id"); cbn [present negb];
    [|intros [= <-]; right; split; [reflexivity|left; reflexivity]].
  destruct (row !! "body") as [[body|z]|]; cbn [format_body present negb];
    [| intros _; left; split; [reflexivity|split; [discriminate|eauto]]
     | intros [= <-]; right; split; [reflexivity|right; discriminate]].
  destruct (row !! "created_utc"); cbn [present negb];
    [|intros [= <-]; right; split; [reflexivity|right; discriminate]].
  destruct (row !! "score") as [[s|z]|]; cbn [compared present negb];
    [| |intros [= <-]; right; split; [reflexivity|right; discriminate]].
  - destruct (row !! "name"); cbn [present negb];
      [|intros [= <-]; right; split; [reflexivity|right; discriminate]].
    destruct (row !! "subreddit"); cbn [present negb];
      [discriminate|intros [= <-]; right; split; [reflexivity|right; discriminate]].
  - destruct (row !! "name"); cbn [present negb];
      [|intros [= <-]; right; split; [reflexivity|right; discriminate]].
    destruct (row !! "subreddit"); cbn [present negb];
      [discriminate|intros [= <-]; right; split; [reflexivity|right; discriminate]].
Qed.

Lemma first_missing_some row key :
  key ∈ required_keys -> row !! key = None ->
  exists k, first_missing row = Some k /\ k ∈ required_keys /\ row !! k = None.
Proof.
  intros Hin Hnone. unfold first_missing.
  destruct (find (fun k => negb (present (row !! k))) required_keys) as [k|] eqn:E.
  - exists k. apply find_some in E as [Hk Hb]. split; [reflexivity|].
    split; [now apply list_elem_of_In|].
    destruct (row !! k); [discriminate Hb|reflexivity].
  - apply list_elem_of_In in Hin. apply (find_none _ _ E) in Hin.
    rewrite Hnone in Hin. discriminate Hin.
Qed.

End Reading.

(** ** Ingest: the write buffer *)

Section Buffer.

Lemma execute_all_app a b t :
  execute_all (a ++ b) t = execute_all b (execute_all a t).
Proof. unfold execute_all. apply fold_left_app. Qed.

Lemma push_all_app a b db : push_all (a ++ b) db = push_all b (push_all a db).
Proof. unfold push_all. apply fold_left_app. Qed.

Lemma db_transaction_bldr s st : db_of (transaction_bldr s st) = push s (db_of st).
Proof.
  unfold transaction_bldr, push, db_of. cbn [fst snd].
  destruct (1000 <? length (sql_transaction st ++ [s]))%nat; reflexivity.
Qed.

Lemma transaction_bldr_from_empty s st :
  sql_transaction st = [] -> sql_transaction (transaction_bldr s st) = [s].
Proof.
  intros H. unfold transaction_bldr. rewrite H. cbn [app length].
  change (1000 <? 1)%nat with false. reflexivity.
Qed.

Lemma db_count_pair st : db_of (count_pair st) = db_of st.
Proof. reflexivity. Qed.

Lemma db_count_row st : db_of (count_row st) = db_of st.
Proof. reflexivity. Qed.

Lemma db_progress st : db_of (progress st) = db_of st.
Proof. unfold progress. destruct (_ =? _)%Z; reflexivity. Qed.

(** The block under [if score >= 2:] looks at the table only, and hands
    to [transaction_bldr] what it would hand over with an empty buffer. *)
Lemma select_write_frame f st st0 :
  table_of st0 = table_of st -> sql_transaction st0 = [] ->
  db_of (select_write f st) = push_all (sql_transaction (select_write f st0)) (db_of st).
Proof.
  intros Ht Hb. unfold select_write. rewrite Ht.
  unfold sql_insert_replace_comment, sql_insert_has_parent, sql_insert_no_parent.
  destruct (python_int (f_created_utc f));
  repeat match goal with
         | |- context [if ?c then _ else _] => destruct c
         end;
    rewrite ?db_count_pair, ?db_transaction_bldr;
    try (rewrite Hb; reflexivity);
    cbn [count_pair sql_transaction];
    rewrite ?transaction_bldr_from_empty by exact Hb;
    try (rewrite Hb; reflexivity); reflexivity.
Qed.

(** Processing a line changes table and buffer as [transaction_bldr]
    does on the statements [written]. *)
Lemma loop_body_db row st :
  db_of (final (loop_body row st)) = push_all (written row st) (db_of st).
Proof.
  unfold written, loop_body. destruct (read_fields row) as [f|e].
  - cbn [final]. rewrite db_progress.
    rewrite (select_write_frame f (count_row st)
               (count_row (mkState (table_of st) [] (row_counter st) (paired_rows st) (stdout st))))
      by reflexivity.
    rewrite db_count_row. f_equal.
    unfold progress. destruct (_ =? _)%Z; reflexivity.
  - reflexivity.
Qed.

Lemma ingest_db rows : forall st,
  db_of (final (ingest rows st)) = push_all (enqueued rows st) (db_of st).
Proof.
  induction rows as [|row rows IH]; intros st; [reflexivity|].
  cbn [ingest enqueued]. rewrite push_all_app, <- loop_body_db.
  destruct (loop_body row st) as [st'|e st']; cbn [final].
  - apply IH.
  - reflexivity.
Qed.

(** A line hands over at most one statement. *)
Lemma written_at_most_one row st :
  written row st = [] \/ exists s, written row st = [s] /\ unbound s.
Proof.
  unfold written, loop_body. destruct (read_fields row) as [f|e]; [|left; reflexivity].
  cbn [final]. set (st0 := count_row _).
  assert (Hb : sql_transaction st0 = []) by reflexivity.
  assert (Hp : forall x, sql_transaction (progress x) = sql_transaction x).
  { intros x. unfold progress. destruct (_ =? _)%Z; reflexivity. }
  rewrite Hp. unfold select_write.
  unfold sql_insert_replace_comment, sql_insert_has_parent, sql_insert_no_parent.
  destruct (python_int (f_created_utc f));
  repeat match goal with
         | |- context [if ?c then _ else _] => destruct c
         end;
    try (left; exact Hb);
    right; cbn [count_pair sql_transaction];
    rewrite transaction_bldr_from_empty by exact Hb;
    eexists; split; try reflexivity; exact I.
Qed.

(** The buffer after any number of calls: whole batches of 1001
    statements have been executed, the rest is still in the buffer. *)
Lemma push_all_split stmts : forall t buffer,
  length buffer <= 1000 ->
  let n := length (buffer ++ stmts) in
  push_all stmts (t, buffer) =
  (execute_all (take (n - n mod 1001) (buffer ++ stmts)) t,
   drop (n - n mod 1001) (buffer ++ stmts)).
Proof.
  induction stmts as [|s stmts IH]; intros t buffer Hb n; subst n.
  - rewrite app_nil_r, Nat.mod_small by lia. rewrite Nat.sub_diag. reflexivity.
  - cbn [push_all fold_left]. fold (push_all stmts (push s (t, buffer))).
    unfold push at 1. cbn [fst snd].
    destruct (Nat.ltb_spec 1000 (length (buffer ++ [s]))) as [Hfull|Hroom].
    + rewrite length_app in Hfull. cbn [length] in Hfull.
      assert (Hlen : length (buffer ++ [s]) = 1001)
        by (rewrite length_app; cbn [length]; lia).
      rewrite (IH _ []) by (cbn [length]; lia). cbn [app].
      replace (buffer ++ s :: stmts) with ((buffer ++ [s]) ++ stmts)
        by (rewrite <- app_assoc; reflexivity).
      rewrite (length_app (buffer ++ [s])), Hlen.
      set (m := length stmts).
      assert (Hmod : (1001 + m) mod 1001 = m mod 1001).
      { replace (1001 + m) with (m + 1 * 1001) by lia. apply Nat.Div0.mod_add. }
      assert (Hle : m mod 1001 <= m) by apply Nat.Div0.mod_le.
      rewrite Hmod.
      replace (1001 + m - m mod 1001) with (1001 + (m - m mod 1001)) by lia.
      rewrite take_app_add', drop_app_add' by (symmetry; exact Hlen).
      rewrite !execute_all_app. reflexivity.
    + rewrite (IH t (buffer ++ [s])) by exact Hroom.
      rewrite <- app_assoc. reflexivity.
Qed.

End Buffer.

(** ** Ingest: what a line can do *)

Section Lines.

Lemma select_write_low f st : (f_score f < 2)%Z -> select_write f st = st.
Proof.
  intros H. unfold select_write.
  destruct (Z.leb_spec 2 (f_score f)); [lia|reflexivity].
Qed.

Lemma written_low row z st :
  row !! "score" = Some (JInt z) -> (z < 2)%Z -> written row st = [].
Proof.
  intros Hrow Hz. unfold written, loop_body.
  destruct (read_fields row) as [f|e] eqn:E; [|reflexivity].
  apply read_fields_ok in E as (_ & _ & _ & Hs & _).
  rewrite Hrow in Hs. inversion Hs; subst z.
  rewrite select_write_low by exact Hz.
  cbn [final]. unfold progress. destruct (_ =? _)%Z; reflexivity.
Qed.

(** C9.  A line whose score is below 2 hands no statement to
    [transaction_bldr]: table and buffer are after the line what they
    were before it, whatever else the run holds. *)
Theorem low_score_writes_nothing
    (row : gmap string jvalue) (z : Z) (st : state) :
  row !! "score" = Some (JInt z) -> (z < 2)%Z ->
  written row st = [] /\
  table_of (final (loop_body row st)) = table_of st /\
  sql_transaction (final (loop_body row st)) = sql_transaction st.
Proof.
  intros Hrow Hz. pose proof (written_low row z st Hrow Hz) as Hw.
  pose proof (loop_body_db row st) as Hdb. rewrite Hw in Hdb.
  unfold db_of in Hdb. cbn [push_all fold_left] in Hdb.
  apply pair_equal_spec in Hdb as [Ht Hb]. auto.
Qed.

(** A run over lines that all have a score below 2 writes nothing. *)
Lemma low_scores_write_nothing (rows : list (gmap string jvalue)) : forall st,
  Forall (fun row => exists z, row !! "score" = Some (JInt z) /\ (z < 2)%Z) rows ->
  enqueued rows st = [] /\ db_of (final (ingest rows st)) = db_of st.
Proof.
  induction rows as [|row rows IH]; intros st H; [split; reflexivity|].
  apply Forall_cons in H as [(z & Hz & Hlt) H].
  assert (Hw : written row st = []) by (eapply written_low; eassumption).
  pose proof (loop_body_db row st) as Hdb. rewrite Hw in Hdb.
  cbn [push_all fold_left] in Hdb.
  cbn [enqueued ingest]. rewrite Hw. cbn [app].
  destruct (loop_body row st) as [st'|e st']; cbn [final] in Hdb |- *.
  - destruct (IH st' H) as [He Hd]. split; [exact He|]. now rewrite Hd.
  - split; [reflexivity|exact Hdb].
Qed.

(** C2, as the code has it.  A line that lacks one of the six keys is
    counted as read and then ends the run: reading it raises, nothing is
    written for it, and no later line is processed.  The exception is
    the [KeyError] of the first key that is missing, in the order
    [parent_id], [body], [created_utc], [score], [name], [subreddit];
    only when [parent_id] is there and the body is there but is not a
    text does [format_data] raise [AttributeError] before the missing key
    is read.  No type of a value is tested otherwise. *)
Theorem missing_key_ends_run
    (row : gmap string jvalue) (key : string)
    (rest : list (gmap string jvalue)) (st : state) :
  key ∈ required_keys -> row !! key = None ->
  exists e,
    ingest (row :: rest) st = Raised e (count_row st) /\
    ((exists k, e = KeyError k /\ first_missing row = Some k /\
                k ∈ required_keys /\ row !! k = None /\
                (row !! "parent_id" = None \/ forall z, row !! "body" <> Some (JInt z))) \/
     (e = AttributeError /\ row !! "parent_id" <> None /\
      exists z, row !! "body" = Some (JInt z))).
Proof.
  intros Hin Hnone.
  destruct (first_missing_some row key Hin Hnone) as (k & Hk & Hreq & Hmiss).
  destruct (read_fields_missing row k Hk) as [(He & Hp & Hb) | (He & Hb)].
  - exists AttributeError. split.
    + cbn [ingest]. unfold loop_body. rewrite He. reflexivity.
    + right. auto.
  - exists (KeyError k). split.
    + cbn [ingest]. unfold loop_body. rewrite He. reflexivity.
    + left. exists k. auto.
Qed.

(** C3, as the code has it.  The run ends without a flush.  Of the
    statements handed to [transaction_bldr] during a run, whole batches
    of 1001 have been executed; the rest, up to 1000 statements, is in
    the buffer when the run ends, and the table has not seen it. *)
Theorem trailing_batch_stays_in_buffer
    (t0 : table) (rows : list (gmap string jvalue)) :
  let st := final (ingest rows (start t0)) in
  let stmts := enqueued rows (start t0) in
  let n := length stmts in
  sql_transaction st = drop (n - n mod 1001) stmts /\
  table_of st = execute_all (take (n - n mod 1001) stmts) t0 /\
  length (sql_transaction st) = n mod 1001.
Proof.
  intros st stmts n.
  pose proof (ingest_db rows (start t0)) as Hdb.
  rewrite (push_all_split _ t0 []) in Hdb by (cbn [length]; lia).
  cbn [app] in Hdb. unfold db_of in Hdb. apply pair_equal_spec in Hdb as [Ht Hb].
  fold st in Ht, Hb. fold stmts in Ht, Hb. fold n in Ht, Hb.
  repeat split; [exact Hb|exact Ht|].
  rewrite Hb, length_drop. change (length stmts) with n.
  generalize (Nat.Div0.mod_le n 1001). generalize (n mod 1001).
  clear. intros r Hr. lia.
Qed.

End Lines.

(** ** Ingest: the table *)

Section Table.

Lemma existsb_elem_of {A} (p : A -> bool) (l : list A) (x : A) :
  x ∈ l -> p x = true -> existsb p l = true.
Proof.
  intros Hin Hp. apply existsb_exists. exists x. split; [|exact Hp].
  now apply list_elem_of_In.
Qed.

(** An INSERT that goes through appends its row, whose [parent_id] was
    not in the table. *)
Lemma insert_row_some r t t' :
  insert_row r t = Some t' -> t' = t ++ [r] /\ parent_id r ∉ (parent_id <$> t).
Proof.
  unfold insert_row.
  destruct (existsb (fun x => String.eqb (parent_id x) (parent_id r)) t) eqn:E1;
    [discriminate|].
  destruct (existsb (fun x => String.eqb (comment_id x) (comment_id r)) t);
    [discriminate|].
  intros [= <-]. split; [reflexivity|].
  intros Hin. apply list_elem_of_fmap in Hin as (x & Hx & Hin).
  rewrite (existsb_elem_of _ t x Hin) in E1; [discriminate|].
  apply String.eqb_eq. congruence.
Qed.








(** The comment of a row handed over has gone through [format_data]: it
    holds no line break. *)
Lemma written_comment_one_line row st r :
  written row st = [INSERT r] ->
  exists c, comment r = Some c /\
    PyStr.has_char PyStr.LF c = false /\ PyStr.has_char PyStr.CR c = false.
Proof.
  unfold written, loop_body. destruct (read_fields row) as [f|e] eqn:E; [|discriminate].
  apply read_fields_ok in E as (_ & (body & _ & Hbody) & _).
  cbn [final]. set (st0 := count_row _).
  assert (Hb : sql_transaction st0 = []) by reflexivity.
  assert (Hp : forall x, sql_transaction (progress x) = sql_transaction x).
  { intros x. unfold progress. destruct (_ =? _)%Z; reflexivity. }
  rewrite Hp. unfold select_write.
  unfold sql_insert_replace_comment, sql_insert_has_parent, sql_insert_no_parent.
  assert (Hfmt : PyStr.has_char PyStr.LF (f_body f) = false /\
                 PyStr.has_char PyStr.CR (f_body f) = false).
  { rewrite Hbody. split; [apply format_data_no_LF|apply format_data_no_CR]. }
  destruct (python_int (f_created_utc f));
  repeat match goal with
         | |- context [if ?c then _ else _] => destruct c
         end;
    try (rewrite Hb; discriminate);
    cbn [count_pair sql_transaction];
    rewrite ?transaction_bldr_from_empty by exact Hb;
    try (rewrite Hb; discriminate);
    try discriminate; intros [= <-]; exists (f_body f); (split; [reflexivity|exact Hfmt]).
Qed.



(** *** Rows are only ever added by plain statements *)

Lemma execute_plain s t t' :
  plain_stmt s -> execute s t = Some t' -> exists r, t' = t ++ [r].
Proof.
  destruct s as [r|u]; cbn [plain_stmt execute].
  - intros -> H. apply insert_row_some in H as [-> _]. eauto.
  - intros ->. discriminate.
Qed.

Lemma execute_all_grows stmts : forall t,
  Forall plain_stmt stmts -> t `prefix_of` execute_all stmts t.
Proof.
  induction stmts as [|s stmts IH]; intros t H; [reflexivity|].
  apply Forall_cons in H as [Hs H]. cbn [execute_all fold_left].
  destruct (execute s t) as [t'|] eqn:E; [|now apply IH].
  apply (execute_plain s t t' Hs) in E as [r ->].
  transitivity (t ++ [r]); [now apply prefix_app_r|now apply IH].
Qed.



Lemma enqueued_unbound rows : forall st, Forall unbound (enqueued rows st).
Proof.
  induction rows as [|row rows IH]; intros st; [constructor|].
  cbn [enqueued]. apply Forall_app. split.
  - destruct (written_at_most_one row st) as [-> | (s & -> & Hs)];
      [constructor|now constructor].
  - destruct (loop_body row st); [apply IH|constructor].
Qed.




Lemma row_for_prefix pid t t' r :
  t `prefix_of` t' -> row_for pid t = Some r -> row_for pid t' = Some r.
Proof.
  intros [k ->]. unfold row_for. induction t as [|x t IH]; [discriminate|].
  cbn [app find]. destruct (String.eqb (parent_id x) pid); auto.
Qed.



End Table.

(** ** Best-reply selection *)

Section BestReply.

(** C1 does not hold on the code.  When the reply of score 3 is stored
    and a reply of score 5 arrives, the statement handed over is the
    UPDATE with its eight unbound parameters; executing it raises and the
    row of score 3 stays.  So after the replies of score 3 followed by
    those of score 5, with both flushes done, the row for [t1_a] holds
    "hi" with score 3, while the opposite order of arrival ends with
    "hello" and score 5.  Without a flush in between, both replies are
    handed over as INSERTs, and the second raises on the taken
    [parent_id]. *)
Theorem higher_score_does_not_replace :
  ingest [line_hello] (start [row_hi]) = Done (mkState [row_hi] [update_stmt] 1 0 []) /\
  execute_all [update_stmt] [row_hi] = [row_hi] /\
  ingest low_then_high (start []) = Done (mkState [row_hi] [] 2002 0 []) /\
  ingest high_then_low (start []) = Done (mkState [row_hello] [] 2002 0 []) /\
  ingest [line_hi; line_hello] (start []) =
    Done (mkState [] [INSERT row_hi; INSERT row_hello] 2 0 []) /\
  execute_all [INSERT row_hi; INSERT row_hello] [] = [row_hi] /\
  execute_all [INSERT row_hello; INSERT row_hi] [] = [row_hello].
Proof.
  do 6 (split; [vm_compute; reflexivity|]). vm_compute; reflexivity.
Qed.

End BestReply.

(** ** Corpus export *)

Section Exporter.

Lemma elem_of_insert_by_unix x r l :
  x ∈ insert_by_unix r l -> x = r \/ x ∈ l.
Proof.
  induction l as [|y l IH]; cbn [insert_by_unix].
  - intros H. apply list_elem_of_singleton in H. auto.
  - destruct (unix r <? unix y)%Z.
    + intros H. apply elem_of_cons in H. exact H.
    + intros H. apply elem_of_cons in H as [-> | H].
      * right. left.
      * destruct (IH H) as [-> | H']; [auto|]. right. now right.
Qed.

Lemma elem_of_order_by_unix x l : x ∈ order_by_unix l -> x ∈ l.
Proof.
  unfold order_by_unix. intros H. apply elem_of_reverse. revert H.
  induction (reverse l) as [|y k IH]; cbn [foldr]; [auto|].
  intros H. apply elem_of_insert_by_unix in H as [-> | H]; [left|right; auto].
Qed.

(** The rows of a page are rows of the table past the cursor, with a
    parent text. *)
Lemma elem_of_read_sql x last_unix limit t :
  x ∈ read_sql last_unix limit t ->
  x ∈ t /\ (last_unix < unix x)%Z /\ parent x <> None /\ (0 < score x)%Z.
Proof.
  unfold read_sql. intros H. apply subseteq_take in H.
  apply elem_of_order_by_unix in H. apply list_elem_of_In, filter_In in H as [Hin Hc].
  apply andb_true_iff in Hc as [Hc Hs]. apply andb_true_iff in Hc as [Hu Hp].
  apply list_elem_of_In in Hin. apply bool_decide_eq_true in Hp.
  split; [exact Hin|]. split; [lia|]. split; [exact Hp|lia].
Qed.







(** A text without a line break is written as one line. *)
Lemma written_as_one_line s :
  PyStr.has_char PyStr.LF s = false ->
  PyStr.count_char PyStr.LF (String.append s newline) = 1.
Proof.
  induction s as [|c s IH]; [reflexivity|].
  cbn [PyStr.has_char]. intros H. apply orb_false_iff in H as [Hc Hs].
  change (String.append (String c s) newline) with (String c (String.append s newline)).
  cbn [PyStr.count_char]. rewrite Hc. now apply IH.
Qed.









(** *** The loop ends *)

Lemma ahead_shrinks (u v : Z) (r : row) (t : table) :
  r ∈ t -> (u < unix r)%Z -> unix r = v ->
  length (ahead v t) < length (ahead u t).
Proof.
  intros Hin Hu <-. unfold ahead.
  assert (Hle : forall l, length (List.filter (fun x => (unix r <? unix x)%Z) l)
                          <= length (List.filter (fun x => (u <? unix x)%Z) l)).
  { induction l as [|x l IH]; [reflexivity|]. cbn [List.filter].
    destruct (Z.ltb_spec (unix r) (unix x)); destruct (Z.ltb_spec u (unix x));
      cbn [length]; lia. }
  induction t as [|x t IH]; [inversion Hin|].
  apply elem_of_cons in Hin as [<- | Hin].
  - cbn [List.filter]. rewrite Z.ltb_irrefl.
    destruct (Z.ltb_spec u (unix r)); [|lia]. cbn [length]. specialize (Hle t). lia.
  - specialize (IH Hin). cbn [List.filter].
    destruct (Z.ltb_spec (unix r) (unix x)); destruct (Z.ltb_spec u (unix x));
      cbn [length]; lia.
Qed.

Lemma export_body_advances limit t st st' :
  export_body limit t st = Exported st' ->
  length (ahead (last_unix st') t) < length (ahead (last_unix st) t).
Proof.
  unfold export_body. destruct (last _) as [r|] eqn:Hlast; [|discriminate].
  apply last_Some_elem_of in Hlast. apply elem_of_read_sql in Hlast as (Hin & Hu & _).
  destruct (write_page _ _ _) as [d [e|]]; [discriminate|].
  intros [= <-]. cbn [last_unix]. now apply (ahead_shrinks _ _ r).
Qed.

Lemma export_loop_ends limit t fuel : forall st,
  length (ahead (last_unix st) t) < fuel ->
  forall st', export_loop fuel limit t st <> OutOfFuel st'.
Proof.
  induction fuel as [|fuel IH]; intros st Hfuel st'; [lia|].
  cbn [export_loop]. destruct (_ =? _)%nat; [|discriminate].
  destruct (export_body limit t st) as [st1|e st1|st1] eqn:E; try discriminate.
  - apply IH. apply export_body_advances in E. lia.
  - unfold export_body in E. destruct (last _); [|discriminate].
    destruct (write_page _ _ _) as [d [e|]]; discriminate.
Qed.

(** The export cell always comes to an end, normally or by an exception. *)
Lemma export_ends limit t d :
  (exists st, export limit t d = Exported st) \/
  (exists e st, export limit t d = ExportRaised e st).
Proof.
  assert (H : forall st', export limit t d <> OutOfFuel st').
  { unfold export. apply export_loop_ends.
    unfold ahead. pose proof (filter_length_le (fun r => (0 <? unix r)%Z) t).
    cbn [export_start last_unix]. lia. }
  destruct (export limit t d) as [st|e st|st]; eauto. now destruct (H st).
Qed.

(** C4 does not hold on the code: a page without rows makes
    [df.tail(1)['unix'].values[0]] raise [IndexError].  So the export
    of an empty table, of a table without a row that has a parent text,
    and of a table of exactly 5000 such rows ends by that exception; in
    the last case after the first page has been written. *)
Theorem export_raises_on_empty_page :
  (forall d, export limit [] d = ExportRaised IndexError (export_start limit d)) /\
  (forall d, export limit [row_hi] d = ExportRaised IndexError (export_start limit d)) /\
  (exists st,
      export limit (sample_table 5000) no_files = ExportRaised IndexError st /\
      last_unix st = 5000%Z /\ cur_length st = 5000 /\ counter st = 1%Z /\
      length (test_from (disk st)) = 5000 /\ length (test_to (disk st)) = 5000 /\
      train_from (disk st) = [] /\ train_to (disk st) = []).
Proof.
  split; [reflexivity|]. split; [intros d; vm_compute; reflexivity|].
  vm_compute. eexists. split; [reflexivity|]. repeat split; reflexivity.
Qed.

(** A page shorter than the limit, and not empty, ends the loop as
    meant: three rows are one page, written to the held-out files. *)
Example export_short_page :
  export limit (sample_table 3) no_files =
  Exported
    (mkExport 3 3 1 true
       (mkFiles
          (prompt_lines [sample_row 1; sample_row 2; sample_row 3])
          (reply_lines [sample_row 1; sample_row 2; sample_row 3]) [] [])
       []).
Proof. vm_compute. reflexivity. Qed.

(** A page of the training split with a NULL reply is written in full,
    the NULL as the text [None]. *)
Example training_page_with_null :
  export_body limit [sample_row 1; row_null] (mkExport 0 limit 1 true no_files []) =
  Exported
    (mkExport 2 2 2 true
       (mkFiles [] []
          (prompt_lines [sample_row 1; row_null])
          [String.append "fine" newline; String.append "None" newline])
       []).
Proof. vm_compute. reflexivity. Qed.

End Exporter.

(** ** More on the record normalizer *)

Section NormalizerMore.
Import PyStr.

Lemma count_char_append c a b :
  count_char c (String.append a b) = count_char c a + count_char c b.
Proof.
  induction a as [|d a IH]; [reflexivity|].
  change (String.append (String d a) b) with (String d (String.append a b)).
  cbn [count_char]. rewrite IH. lia.
Qed.

(** Replacing a character by a text: what the count of another character
    becomes. *)
Lemma count_char_replace_char c d new s :
  Ascii.eqb d c = false ->
  count_char d (replace_scan (String c EmptyString) new 0 s) =
  count_char d s + count_char d new * count_char c s.
Proof.
  intros Hdc. induction s as [|x s IH]; [cbn; lia|].
  cbn [replace_scan startswith String.length Nat.sub].
  destruct (Ascii.eqb c x) eqn:E; cbn [andb].
  - apply Ascii.eqb_eq in E. subst x.
    rewrite count_char_append, IH. cbn [count_char].
    rewrite Hdc, Ascii.eqb_refl. lia.
  - cbn [count_char]. rewrite IH, E. lia.
Qed.

(** Collapsing doubled quotes leaves the count of every character other
    than the two quotes as it is. *)
Lemma count_char_collapse_aux d s :
  Ascii.eqb d DQUOTE = false -> Ascii.eqb d SQUOTE = false ->
  count_char d (replace_scan doubled_quote (String SQUOTE EmptyString) 0 s) = count_char d s /\
  forall c, count_char d (replace_scan doubled_quote (String SQUOTE EmptyString) 0 (String c s))
            = count_char d (String c s).
Proof.
  intros Hd Hs. unfold doubled_quote.
  induction s as [|b s [IH0 IH1]].
  - split; [reflexivity|]. intros c. rewrite collapse_step, startswith_dq2.
    cbn [starts_dquote]. rewrite andb_false_r. reflexivity.
  - split; [apply IH1|]. intros c. rewrite collapse_step.
    destruct (startswith _ (String c (String b s))) eqn:E.
    + rewrite startswith_dq2 in E. apply andb_true_iff in E as [Ec Eb].
      cbn [starts_dquote] in Eb. apply Ascii.eqb_eq in Ec, Eb. subst c b.
      cbn [count_char]. rewrite IH0, Hd, Hs. reflexivity.
    + cbn [count_char]. cbn [count_char] in IH1. rewrite (IH1 b). reflexivity.
Qed.


(** X1.  Whatever the text, [format_data] returns a text without a line
    feed, without a carriage return and without a doubled double quote. *)
Theorem format_data_is_single_line (s : string) :
  has_char LF (format_data s) = false /\
  has_char CR (format_data s) = false /\
  occurs doubled_quote (format_data s) = false.
Proof.
  split; [apply format_data_no_LF|]. split; [apply format_data_no_CR|].
  unfold format_data. apply collapse_no_pair.
Qed.

(** X2.  The texts [format_data] returns unchanged are exactly the texts
    without a line feed, a carriage return or a doubled double quote. *)
Theorem format_data_fixed_points (s : string) :
  format_data s = s <->
  (has_char LF s = false /\ has_char CR s = false /\ occurs doubled_quote s = false).
Proof.
  split.
  - intros H. rewrite <- H. split; [apply format_data_no_LF|].
    split; [apply format_data_no_CR|]. unfold format_data. apply collapse_no_pair.
  - intros (Hlf & Hcr & Hdq). unfold format_data.
    rewrite (replace_absent (String LF EmptyString)) by (now rewrite occurs_char).
    rewrite (replace_absent (String CR EmptyString)) by (now rewrite occurs_char).
    now apply replace_absent.
Qed.

(** X3.  The number of pieces [acceptable] counts in a normalized text:
    one, plus one for every space of the raw text, plus two for every line
    feed and every carriage return, which come back as [newlinechar]
    between two spaces. *)
Theorem pieces_of_normalized_text (s : string) :
  length (split " " (format_data s)) =
  1 + count_char " " s + 2 * count_char LF s + 2 * count_char CR s.
Proof.
  rewrite length_split. unfold format_data, replace.
  destruct (count_char_collapse_aux " "
              (replace_scan (String CR EmptyString) newlinechar 0
                 (replace_scan (String LF EmptyString) newlinechar 0 s)))
    as [H _]; [reflexivity|reflexivity|].
  unfold doubled_quote in H. rewrite H.
  rewrite (count_char_replace_char CR " ") by reflexivity.
  rewrite (count_char_replace_char LF " ") by reflexivity.
  rewrite (count_char_replace_char LF CR) by reflexivity.
  change (count_char " " newlinechar) with 2.
  change (count_char CR newlinechar) with 0. lia.
Qed.

End NormalizerMore.

(** ** More on the lookups and the statements *)

Section LookupsMore.

Lemma find_app_fresh {A} (p : A -> bool) (l : list A) (x : A) :
  (forall y, y ∈ l -> p y = false) -> p x = true -> find p (l ++ [x]) = Some x.
Proof.
  intros Hl Hx. induction l as [|y l IH]; cbn [app find].
  - now rewrite Hx.
  - rewrite (Hl y) by left. apply IH. intros z Hz. apply Hl. now right.
Qed.

Lemma find_app_other {A} (p : A -> bool) (l : list A) (x : A) :
  p x = false -> find p (l ++ [x]) = find p l.
Proof.
  intros Hx. induction l as [|y l IH]; cbn [app find].
  - now rewrite Hx.
  - destruct (p y); [reflexivity|exact IH].
Qed.

Lemma existsb_false_elem_of {A} (p : A -> bool) (l : list A) :
  existsb p l = false -> forall y, y ∈ l -> p y = false.
Proof.
  intros H y Hy. destruct (p y) eqn:E; [|reflexivity].
  now rewrite (existsb_elem_of p l y Hy E) in H.
Qed.

(** An INSERT goes through only for a row whose two identifiers are new
    to the table. *)
Lemma insert_row_inv r t t' :
  insert_row r t = Some t' ->
  t' = t ++ [r] /\
  (forall x, x ∈ t -> String.eqb (parent_id x) (parent_id r) = false) /\
  (forall x, x ∈ t -> String.eqb (comment_id x) (comment_id r) = false).
Proof.
  unfold insert_row.
  destruct (existsb (fun x => String.eqb (parent_id x) (parent_id r)) t) eqn:E1;
    [discriminate|].
  destruct (existsb (fun x => String.eqb (comment_id x) (comment_id r)) t) eqn:E2;
    [discriminate|].
  intros [= <-]. split; [reflexivity|]. split.
  - exact (existsb_false_elem_of _ t E1).
  - exact (existsb_false_elem_of _ t E2).
Qed.

(** X4.  Insert, then look up.  Once the INSERT of a row of plain values
    has gone through, the row is the one found for its [parent_id];
    [find_existing_score] returns its score for that [parent_id] and
    [find_parent] returns its comment for its [comment_id], for
    identifiers that the lookups read back as they are. *)
Theorem insert_then_lookup (r : row) (t t' : table) :
  plain_row r = true ->
  execute (INSERT r) t = Some t' ->
  row_for (parent_id r) t' = Some r /\
  (sql_literal (parent_id r) = true ->
   find_existing_score t' (parent_id r) = Some (score r)) /\
  (sql_literal (comment_id r) = true ->
   find_parent t' (comment_id r) = comment r).
Proof.
  cbn [execute]. intros -> H. apply insert_row_inv in H as (-> & Hp & Hc).
  assert (F1 : find (fun x => String.eqb (parent_id x) (parent_id r)) (t ++ [r]) = Some r)
    by (apply find_app_fresh; [exact Hp|apply String.eqb_refl]).
  assert (F2 : find (fun x => String.eqb (comment_id x) (comment_id r)) (t ++ [r]) = Some r)
    by (apply find_app_fresh; [exact Hc|apply String.eqb_refl]).
  split; [exact F1|]. split; intros Hq.
  - unfold find_existing_score. now rewrite Hq, F1.
  - unfold find_parent. now rewrite Hq, F2.
Qed.

(** X5.  An INSERT of plain values that has gone through leaves the
    answers of both lookups for every other identifier as they were, for
    identifiers that the lookups read back as they are. *)
Theorem insert_keeps_other_lookups (r : row) (t t' : table) (pid : string) :
  plain_row r = true ->
  sql_literal pid = true ->
  execute (INSERT r) t = Some t' ->
  (pid <> parent_id r -> find_existing_score t' pid = find_existing_score t pid) /\
  (pid <> comment_id r -> find_parent t' pid = find_parent t pid).
Proof.
  cbn [execute]. intros -> Hq H. apply insert_row_inv in H as (-> & _ & _).
  split; intros Hne.
  - unfold find_existing_score. rewrite Hq.
    rewrite find_app_other; [reflexivity|]. apply String.eqb_neq. congruence.
  - unfold find_parent. rewrite Hq.
    rewrite find_app_other; [reflexivity|]. apply String.eqb_neq. congruence.
Qed.

(** X6.  What a lookup returns is in the table, for an identifier that
    is read back as it is: a score returned for a [parent_id] is the
    score of a row with that [parent_id], a text returned for an
    identifier is the comment of a row with that [comment_id]; and on a
    table with at most one row for a [parent_id] the score of every row
    with that [parent_id] is found. *)
Theorem lookups_read_the_table (t : table) (pid : string) :
  sql_literal pid = true ->
  (forall z, find_existing_score t pid = Some z ->
     exists x, x ∈ t /\ parent_id x = pid /\ score x = z) /\
  (forall p, find_parent t pid = Some p ->
     exists x, x ∈ t /\ comment_id x = pid /\ comment x = Some p) /\
  (pk_unique t ->
   forall x, x ∈ t -> parent_id x = pid -> find_existing_score t pid = Some (score x)).
Proof.
  unfold find_existing_score, find_parent. intros ->.
  split; [|split].
  - intros z.
    destruct (find _ t) as [x|] eqn:E; [|discriminate]. intros [= <-].
    apply find_some in E as [Hin Hx]. apply list_elem_of_In in Hin.
    apply String.eqb_eq in Hx. eauto.
  - intros p.
    destruct (find _ t) as [x|] eqn:E; [|discriminate]. intros Hc.
    apply find_some in E as [Hin Hx]. apply list_elem_of_In in Hin.
    apply String.eqb_eq in Hx. eauto.
  - intros Hpk x Hin Hx.
    destruct (find (fun r => String.eqb (parent_id r) pid) t) as [y|] eqn:E.
    + apply find_some in E as [Hy Hyp]. apply list_elem_of_In in Hy.
      apply String.eqb_eq in Hyp.
      assert (x = y); [|now subst].
      unfold pk_unique in Hpk.
      apply list_elem_of_lookup in Hin as [i Hi]. apply list_elem_of_lookup in Hy as [j Hj].
      assert (i = j).
      { apply (NoDup_lookup _ i j pid Hpk); rewrite list_lookup_fmap.
        - now rewrite Hi; cbn; rewrite Hx.
        - now rewrite Hj; cbn; rewrite Hyp. }
      subst j. congruence.
    + apply list_elem_of_In in Hin. apply (find_none _ _ E) in Hin.
      apply String.eqb_neq in Hin. contradiction.
Qed.

End LookupsMore.

(** ** More on what a line hands over *)

Section LinesMore.

Lemma progress_frame st :
  table_of (progress st) = table_of st /\
  sql_transaction (progress st) = sql_transaction st /\
  row_counter (progress st) = row_counter st /\
  paired_rows (progress st) = paired_rows st.
Proof. unfold progress. destruct (_ =? _)%Z; repeat split. Qed.

(** [written], with the line read. *)
Lemma written_read row st :
  written row st =
  match read_fields row with
  | Ok f =>
      sql_transaction
        (select_write f (mkState (table_of st) [] (row_counter st + 1) (paired_rows st) (stdout st)))
  | Raise _ => []
  end.
Proof.
  unfold written, loop_body. destruct (read_fields row) as [f|e]; [|reflexivity].
  cbn [final]. now rewrite (proj1 (proj2 (progress_frame _))).
Qed.

(** The statement handed over for a line that was read, by the three
    tests of the block and the conversion of [created_utc]. *)
Lemma written_by_tests row st f :
  read_fields row = Ok f ->
  written row st =
  if (2 <=? f_score f)%Z then
    let existing := find_existing_score (table_of st) (f_parent_id f) in
    if truthy_int existing then
      if (default 0%Z existing <? f_score f)%Z then
        if acceptable (f_body f) then
          match python_int (f_created_utc f) with
          | Some _ => [update_stmt]
          | None => []
          end
        else []
      else []
    else if acceptable (f_body f) then
      let parent_data := find_parent (table_of st) (f_parent_id f) in
      match python_int (f_created_utc f) with
      | Some unix =>
          [INSERT (mkRow (f_parent_id f) (f_comment_id f)
                     (if truthy_str parent_data then Some (default "" parent_data) else None)
                     (Some (f_body f)) (f_subreddit f) unix (f_score f))]
      | None => []
      end
    else []
  else [].
Proof.
  intros E. rewrite written_read, E. unfold select_write.
  unfold sql_insert_replace_comment, sql_insert_has_parent, sql_insert_no_parent.
  cbn [table_of].
  destruct (python_int (f_created_utc f));
  repeat match goal with
         | |- context [if ?c then _ else _] => destruct c
         end;
    cbn [count_pair sql_transaction];
    rewrite ?transaction_bldr_from_empty by reflexivity; reflexivity.
Qed.

(** What the tests of the block say about a row handed over. *)
Lemma written_row_is_the_line row st r :
  written row st = [INSERT r] ->
  exists f unix, read_fields row = Ok f /\
    python_int (f_created_utc f) = Some unix /\
    r = mkRow (f_parent_id f) (f_comment_id f)
          (if truthy_str (find_parent (table_of st) (f_parent_id f))
           then Some (default "" (find_parent (table_of st) (f_parent_id f))) else None)
          (Some (f_body f)) (f_subreddit f) unix (f_score f) /\
    (2 <= f_score f)%Z /\ acceptable (f_body f) = true.
Proof.
  intros H. destruct (read_fields row) as [f|e] eqn:E;
    [|rewrite written_read, E in H; discriminate].
  rewrite (written_by_tests row st f E) in H. exists f.
  destruct (Z.leb_spec 2 (f_score f)) as [Hs|]; [|discriminate].
  cbn zeta in H.
  destruct (truthy_int _);
    [destruct (_ <? _)%Z; [destruct (acceptable _); [destruct (python_int _)|]|]; discriminate|].
  destruct (acceptable (f_body f)) eqn:Ha; [|discriminate].
  destruct (python_int (f_created_utc f)) as [unix|]; [|discriminate].
  exists unix. injection H as <-. auto.
Qed.

(** X7.  The row of an INSERT handed over is the line: its identifiers
    and community are the values of the line under [parent_id], [name]
    and [subreddit] as [str] gives them, its time is [int] of the value
    under [created_utc], its score is the integer under [score], and its
    comment is the normalized [body], a text; the score is at least 2
    and the comment passes [acceptable]. *)
Theorem inserted_row_is_the_line
    (row : gmap string jvalue) (st : state) (r : Sqlite.row) :
  written row st = [INSERT r] ->
  (exists v, row !! "parent_id" = Some v /\ parent_id r = text_of v) /\
  (exists v, row !! "name" = Some v /\ comment_id r = text_of v) /\
  (exists body, row !! "body" = Some (JStr body) /\ comment r = Some (format_data body) /\
                acceptable (format_data body) = true) /\
  (exists v, row !! "subreddit" = Some v /\ subreddit r = text_of v) /\
  (exists v, row !! "created_utc" = Some v /\ python_int v = Some (unix r)) /\
  row !! "score" = Some (JInt (score r)) /\
  (2 <= score r)%Z.
Proof.
  intros H.
  destruct (written_row_is_the_line row st r H) as (f & u & E & Hu & -> & Hs & Ha).
  apply read_fields_ok in E as (H1 & (body & H2 & Hb) & H3 & H4 & H5 & H6).
  cbn [parent_id comment_id comment subreddit unix score].
  split; [exact H1|]. split; [exact H5|].
  split; [exists body; rewrite <- Hb; auto|].
  split; [exact H6|]. split; [eauto|]. split; [exact H4|exact Hs].
Qed.

(** X8.  The parent text of an INSERT handed over.  If the row has one,
    it is not empty and it is what [find_parent] returned for the
    [parent_id] of the new row, which for an identifier read back as it
    is means the comment of a row of the table whose [comment_id] is
    that [parent_id]; if it has none, [find_parent] found no text or an
    empty one. *)
Theorem parent_text_is_a_stored_comment
    (row : gmap string jvalue) (st : state) (r : Sqlite.row) :
  written row st = [INSERT r] ->
  match parent r with
  | Some p =>
      p <> "" /\ find_parent (table_of st) (parent_id r) = Some p /\
      (sql_literal (parent_id r) = true ->
       exists x, x ∈ table_of st /\ comment_id x = parent_id r /\ comment x = Some p)
  | None => truthy_str (find_parent (table_of st) (parent_id r)) = false
  end.
Proof.
  intros H.
  destruct (written_row_is_the_line row st r H) as (f & u & E & Hu & -> & Hs & Ha).
  cbn [parent parent_id].
  destruct (truthy_str (find_parent (table_of st) (f_parent_id f))) eqn:Ht; [|reflexivity].
  destruct (find_parent (table_of st) (f_parent_id f)) as [p|] eqn:Hp; [|discriminate].
  unfold default in *. cbn [from_option id truthy_str] in *. split; [|split; [reflexivity|]].
  - intros Heq. rewrite Heq in Ht. discriminate.
  - intros Hq. unfold find_parent in Hp. rewrite Hq in Hp.
    destruct (find _ (table_of st)) as [x|] eqn:Ef; [|discriminate].
    apply find_some in Ef as [Hin Hx].
    apply list_elem_of_In in Hin. apply String.eqb_eq in Hx. eauto.
Qed.

(** X9.  Ties keep the stored reply.  When [find_existing_score] returns
    a score other than 0 for the parent of a line and the score of the
    line is not greater, nothing is handed over for the line. *)
Theorem not_better_writes_nothing
    (row : gmap string jvalue) (st : state) (pid : string) (z stored : Z) :
  row !! "parent_id" = Some (JStr pid) ->
  row !! "score" = Some (JInt z) ->
  find_existing_score (table_of st) pid = Some stored ->
  stored <> 0%Z -> (z <= stored)%Z ->
  written row st = [].
Proof.
  intros Hp Hs Hl Hnz Hle. destruct (read_fields row) as [f|e] eqn:E;
    [|now rewrite written_read, E].
  rewrite (written_by_tests row st f E).
  apply read_fields_ok in E as ((v & H1 & Hv) & _ & _ & H4 & _).
  rewrite Hp in H1. rewrite Hs in H4. injection H1 as <-. injection H4 as ->.
  cbn [text_of] in Hv. rewrite Hv.
  destruct (2 <=? f_score f)%Z; [|reflexivity]. cbn zeta. rewrite Hl.
  unfold default. cbn [truthy_int from_option id].
  destruct (Z.eqb_spec stored 0); [contradiction|].
  cbn [negb]. destruct (Z.ltb_spec stored (f_score f)); [lia|reflexivity].
Qed.

(** X10.  The block as shown before the statement builders, with the
    filter ahead of the lookup, and the block of the final loop leave the
    same table and the same buffer. *)
Theorem shown_block_writes_the_same (f : fields) (st : state) :
  table_of (select_write_shown f st) = table_of (select_write f st) /\
  sql_transaction (select_write_shown f st) = sql_transaction (select_write f st).
Proof.
  unfold select_write_shown, select_write.
  repeat match goal with
         | |- context [if ?c then _ else _] => destruct c
         end; split; reflexivity.
Qed.

End LinesMore.

(** ** More on a whole run *)

Section RunsMore.

Lemma transaction_bldr_frame s st :
  row_counter (transaction_bldr s st) = row_counter st /\
  paired_rows (transaction_bldr s st) = paired_rows st /\
  stdout (transaction_bldr s st) = stdout st.
Proof. unfold transaction_bldr. destruct (_ <? _)%nat; repeat split. Qed.

Lemma select_write_frame_counters f st :
  row_counter (select_write f st) = row_counter st /\
  stdout (select_write f st) = stdout st.
Proof.
  unfold select_write.
  unfold sql_insert_replace_comment, sql_insert_has_parent, sql_insert_no_parent.
  destruct (python_int (f_created_utc f));
  repeat match goal with
         | |- context [if ?c then _ else _] => destruct c
         end;
    cbn [count_pair row_counter stdout];
    rewrite ?(proj1 (transaction_bldr_frame _ _)),
            ?(proj2 (proj2 (transaction_bldr_frame _ _))); split; reflexivity.
Qed.

(** Every line entered adds one to [row_counter]. *)
Lemma loop_body_row_counter row st :
  row_counter (final (loop_body row st)) = (row_counter st + 1)%Z.
Proof.
  unfold loop_body. destruct (read_fields row) as [f|e]; cbn [final]; [|reflexivity].
  rewrite (proj1 (proj2 (proj2 (progress_frame _)))).
  now rewrite (proj1 (select_write_frame_counters _ _)).
Qed.


(** [paired_rows] grows by one when the line hands over an INSERT with a
    parent text, and also when [int(created_utc)] raises in the builder
    of that INSERT: the count follows the call whatever it did. *)
Lemma loop_body_paired_rows row st :
  paired_rows (final (loop_body row st)) =
  (paired_rows st + Z.of_nat (length (List.filter is_paired_insert (written row st))) +
   Z.of_nat (length (unconverted row st)))%Z.
Proof.
  unfold unconverted.
  destruct (read_fields row) as [f|e] eqn:E.
  - rewrite (written_by_tests row st f E). unfold loop_body. rewrite E. cbn [final].
    rewrite (proj2 (proj2 (proj2 (progress_frame _)))).
    unfold select_write.
    unfold sql_insert_replace_comment, sql_insert_has_parent, sql_insert_no_parent.
    cbn [table_of count_row]. cbn zeta.
    destruct (2 <=? f_score f)%Z; [|cbn; lia].
    destruct (truthy_int _); cbn [andb negb].
    + destruct (_ <? _)%Z; [|cbn; lia].
      destruct (acceptable _); [|cbn; lia].
      destruct (python_int _); [|cbn; lia].
      rewrite (proj1 (proj2 (transaction_bldr_frame _ _))). cbn. lia.
    + destruct (acceptable _); cbn [andb]; [|cbn; lia].
      destruct (truthy_str _); destruct (python_int _);
        cbn [count_pair paired_rows andb present negb];
        rewrite ?(proj1 (proj2 (transaction_bldr_frame _ _)));
        cbn [List.filter is_paired_insert parent].
      * rewrite bool_decide_eq_true_2 by discriminate. cbn. lia.
      * cbn. lia.
      * rewrite bool_decide_eq_false_2 by (intros H; now apply H). cbn. lia.
      * cbn. lia.
  - rewrite written_read, E. unfold loop_body. rewrite E. cbn. lia.
Qed.

Lemma unconverted_nil row st :
  (forall v, row !! "created_utc" = Some v -> python_int v <> None) ->
  unconverted row st = [].
Proof.
  intros H. unfold unconverted. destruct (read_fields row) as [f|e] eqn:E; [|reflexivity].
  apply read_fields_ok in E as (_ & _ & H3 & _). apply H in H3.
  destruct (python_int (f_created_utc f)); [|congruence].
  cbn [present negb]. now rewrite !andb_false_r.
Qed.

Lemma ingest_paired_rows (rows : list (gmap string jvalue)) : forall st : state,
  paired_rows (final (ingest rows st)) =
  (paired_rows st +
   Z.of_nat (length (List.filter is_paired_insert (enqueued rows st))) +
   Z.of_nat (length (all_unconverted rows st)))%Z.
Proof.
  induction rows as [|row rows IH]; intros st; cbn [ingest enqueued all_unconverted].
  - cbn. lia.
  - pose proof (loop_body_paired_rows row st) as Hp.
    rewrite List.filter_app, !length_app.
    destruct (loop_body row st) as [st1|e st1]; cbn [final] in *.
    + rewrite IH, Hp. lia.
    + rewrite Hp. cbn. lia.
Qed.

Lemma all_unconverted_nil (rows : list (gmap string jvalue)) : forall st : state,
  Forall (fun row => forall v, row !! "created_utc" = Some v -> python_int v <> None) rows ->
  all_unconverted rows st = [].
Proof.
  induction rows as [|row rows IH]; intros st H; [reflexivity|].
  apply Forall_cons in H as [Hr H]. cbn [all_unconverted].
  rewrite (unconverted_nil row st Hr). cbn [app].
  destruct (loop_body row st); [now apply IH|reflexivity].
Qed.

(** X12.  [paired_rows] counts the calls of [sql_insert_has_parent]: it
    grows by the number of INSERT statements with a parent text that
    were handed to [transaction_bldr], whether or not they were executed
    or went through, and by the number of lines for which that builder
    caught the exception of [int(created_utc)] and handed nothing over.
    On a run whose values of [created_utc] all convert, these are none,
    and [paired_rows] has grown by the number of those statements. *)
Theorem paired_rows_counts_statements (rows : list (gmap string jvalue)) : forall st : state,
  paired_rows (final (ingest rows st)) =
    (paired_rows st +
     Z.of_nat (length (List.filter is_paired_insert (enqueued rows st))) +
     Z.of_nat (length (all_unconverted rows st)))%Z /\
  (Forall (fun row => forall v, row !! "created_utc" = Some v -> python_int v <> None) rows ->
   paired_rows (final (ingest rows st)) =
     (paired_rows st +
      Z.of_nat (length (List.filter is_paired_insert (enqueued rows st))))%Z).
Proof.
  intros st. split; [apply ingest_paired_rows|].
  intros H. rewrite ingest_paired_rows, (all_unconverted_nil rows st H). cbn. lia.
Qed.

(** With room in the buffer nothing is executed. *)
Lemma push_all_room stmts : forall t buffer,
  length buffer + length stmts <= 1000 ->
  push_all stmts (t, buffer) = (t, buffer ++ stmts).
Proof.
  induction stmts as [|s stmts IH]; intros t buffer H.
  - now rewrite app_nil_r.
  - cbn [length] in H. cbn [push_all fold_left]. fold (push_all stmts (push s (t, buffer))).
    unfold push. cbn [fst snd].
    destruct (Nat.ltb_spec 1000 (length (buffer ++ [s]))) as [Hfull|_].
    + rewrite length_app in Hfull. cbn [length] in Hfull. lia.
    + rewrite IH by (rewrite length_app; cbn [length]; lia).
      now rewrite <- app_assoc.
Qed.

(** X13.  Nothing reaches the table before the 1001st statement.  As
    long as the statements in the buffer and those a run hands over are
    at most 1000 together, the run leaves the table as it was, and so the
    answers of the lookups, and the buffer holds all of them in order. *)
Theorem nothing_committed_below_threshold
    (rows : list (gmap string jvalue)) (st : state) :
  length (sql_transaction st) + length (enqueued rows st) <= 1000 ->
  table_of (final (ingest rows st)) = table_of st /\
  sql_transaction (final (ingest rows st)) = sql_transaction st ++ enqueued rows st.
Proof.
  intros H. pose proof (ingest_db rows st) as Hdb.
  unfold db_of in Hdb at 2. rewrite push_all_room in Hdb by exact H.
  unfold db_of in Hdb. now apply pair_equal_spec in Hdb.
Qed.

Lemma execute_all_without_updates stmts : forall t,
  Forall unbound stmts ->
  execute_all stmts t = execute_all (List.filter is_insert stmts) t.
Proof.
  induction stmts as [|s stmts IH]; intros t H; [reflexivity|].
  apply Forall_cons in H as [Hs H]. cbn [List.filter].
  destruct s as [r|u]; cbn [is_insert execute_all fold_left].
  - apply IH. exact H.
  - cbn [unbound] in Hs. cbn [execute]. rewrite Hs. apply IH. exact H.
Qed.

(** X14.  The UPDATE statements of a run never count.  Executing what a
    run has handed over gives the table that executing its INSERT
    statements alone gives, on every table. *)
Theorem updates_never_count
    (rows : list (gmap string jvalue)) (st : state) (t : table) :
  execute_all (enqueued rows st) t =
  execute_all (List.filter is_insert (enqueued rows st)) t.
Proof. apply execute_all_without_updates. apply enqueued_unbound. Qed.

(** The rows of a table after plain statements were executed: the rows
    before, and rows of INSERT statements. *)
Lemma execute_all_rows stmts : forall t x,
  Forall plain_stmt stmts -> x ∈ execute_all stmts t -> x ∈ t \/ INSERT x ∈ stmts.
Proof.
  induction stmts as [|s stmts IH]; intros t x H Hx; [left; exact Hx|].
  apply Forall_cons in H as [Hs H]. cbn [execute_all fold_left] in Hx.
  fold (execute_all stmts (match execute s t with Some t' => t' | None => t end)) in Hx.
  apply IH in Hx as [Hx|Hx]; [|right; now right|exact H].
  destruct (execute s t) as [t'|] eqn:E; [|left; exact Hx].
  destruct s as [r|u]; cbn [execute plain_stmt] in *.
  - rewrite Hs in E.
    apply insert_row_some in E as [-> _]. apply elem_of_app in Hx as [Hx|Hx]; [left; exact Hx|].
    apply list_elem_of_singleton in Hx. subst x. right. left.
  - rewrite Hs in E. discriminate.
Qed.

Lemma enqueued_inserts (P : row -> Prop) :
  (forall row st r, written row st = [INSERT r] -> P r) ->
  forall rows st r, INSERT r ∈ enqueued rows st -> P r.
Proof.
  intros HP. induction rows as [|row rows IH]; intros st r Hin; [inversion Hin|].
  cbn [enqueued] in Hin. apply elem_of_app in Hin as [Hin|Hin].
  - destruct (written_at_most_one row st) as [Hw | (s & Hw & _)]; rewrite Hw in Hin.
    + inversion Hin.
    + apply list_elem_of_singleton in Hin. subst s. exact (HP row st r Hw).
  - destruct (loop_body row st) as [st1|e st1]; [exact (IH st1 r Hin)|inversion Hin].
Qed.

(** X15.  Only replies that pass are ever stored, as long as every
    INSERT handed over carries plain values.  A row of the table after
    such a run either was in the table before, or has a score of at
    least 2 and a comment that is a text, passes [acceptable] and holds
    no line break; its parent text, if it has one, is not empty. *)
Theorem stored_rows_pass_the_tests
    (t0 : table) (rows : list (gmap string jvalue)) (x : row) :
  Forall plain_stmt (enqueued rows (start t0)) ->
  x ∈ table_of (final (ingest rows (start t0))) ->
  x ∈ t0 \/
  ((2 <= score x)%Z /\
   (exists c, comment x = Some c /\ acceptable c = true /\
              PyStr.has_char PyStr.LF c = false /\ PyStr.has_char PyStr.CR c = false) /\
   parent x <> Some "").
Proof.
  intros Hplain Hx. pose proof (ingest_db rows (start t0)) as Hdb.
  rewrite (push_all_split _ t0 []) in Hdb by (cbn [length]; lia).
  cbn [app] in Hdb. unfold db_of in Hdb. apply pair_equal_spec in Hdb as [Ht _].
  rewrite Ht in Hx. apply execute_all_rows in Hx as [Hx|Hx]; [left; exact Hx| |].
  - right. apply subseteq_take in Hx. revert Hx.
    apply (enqueued_inserts
             (fun r => (2 <= score r)%Z /\
                (exists c, comment r = Some c /\ acceptable c = true /\
                           PyStr.has_char PyStr.LF c = false /\
                           PyStr.has_char PyStr.CR c = false) /\
                parent r <> Some "")).
    intros row st r Hw.
    destruct (written_comment_one_line row st r Hw) as (c & Hc & Hlf & Hcr).
    destruct (written_row_is_the_line row st r Hw) as (f & u & _ & _ & Hr & Hs & Ha).
    subst r. cbn [score comment parent] in *. injection Hc as <-.
    split; [assumption|]. split; [eauto|].
    destruct (find_parent (table_of st) (f_parent_id f)) as [p|]; cbn [truthy_str];
      [|discriminate].
    destruct (String.eqb_spec p ""); cbn [negb]; [discriminate|].
    unfold default. cbn [from_option id]. congruence.
  - apply Forall_forall. intros s Hs. apply subseteq_take in Hs. revert s Hs.
    apply Forall_forall. exact Hplain.
Qed.

End RunsMore.

(** ** Progress lines *)

Section ProgressMore.

Lemma ingest_row_counter_le (rows : list (gmap string jvalue)) : forall st,
  (row_counter st <= row_counter (final (ingest rows st)))%Z.
Proof.
  induction rows as [|row rows IH]; intros st; cbn [ingest final]; [lia|].
  pose proof (loop_body_row_counter row st) as Hc.
  destruct (loop_body row st) as [st1|e st1]; cbn [final] in *.
  - specialize (IH st1). lia.
  - lia.
Qed.

(** A line prints at most one progress line, and only when the count of
    lines has reached a multiple of 100000. *)
Lemma loop_body_stdout row st :
  stdout (final (loop_body row st)) = stdout st \/
  (exists p, stdout (final (loop_body row st)) = stdout st ++ [(row_counter st + 1, p)%Z] /\
             ((row_counter st + 1) mod 100000 = 0)%Z).
Proof.
  unfold loop_body. destruct (read_fields row) as [f|e]; cbn [final]; [|left; reflexivity].
  unfold progress.
  destruct (select_write_frame_counters f (count_row st)) as [Hrc Hout].
  rewrite Hrc, Hout. cbn [count_row row_counter stdout].
  destruct (Z.eqb_spec ((row_counter st + 1) mod 100000) 0) as [Hm|_].
  - right. cbn [stdout]. eauto.
  - left. exact Hout.
Qed.

(** X16.  Progress lines.  A run adds lines to those printed before,
    and each line added shows a count of lines read that is a multiple of
    100000, above the count at the start of the run and at most the count
    at its end. *)
Theorem progress_lines_at_multiples (rows : list (gmap string jvalue)) : forall st : state,
  exists new,
    stdout (final (ingest rows st)) = stdout st ++ new /\
    Forall (fun p => (p.1 mod 100000 = 0)%Z /\
                     (row_counter st < p.1 <= row_counter (final (ingest rows st)))%Z) new.
Proof.
  induction rows as [|row rows IH]; intros st; cbn [ingest].
  - exists []. split; [now rewrite app_nil_r|constructor].
  - pose proof (loop_body_row_counter row st) as Hc.
    pose proof (loop_body_stdout row st) as Hout.
    destruct (loop_body row st) as [st1|e st1]; cbn [final] in *.
    + destruct (IH st1) as (new & Hnew & Hall).
      pose proof (ingest_row_counter_le rows st1) as Hle.
      assert (Hall' : Forall (fun p => (p.1 mod 100000 = 0)%Z /\
                        (row_counter st < p.1 <= row_counter (final (ingest rows st1)))%Z) new).
      { eapply Forall_impl; [exact Hall|]. cbn. intros p [Hm Hb]. split; [exact Hm|lia]. }
      destruct Hout as [Hout | (p & Hout & Hm)].
      * exists new. split; [now rewrite Hnew, Hout|exact Hall'].
      * exists ((row_counter st + 1, p)%Z :: new). split.
        -- rewrite Hnew, Hout, <- app_assoc. reflexivity.
        -- constructor; [|exact Hall']. cbn [fst]. split; [exact Hm|lia].
    + destruct Hout as [Hout | (p & Hout & Hm)].
      * exists []. split; [now rewrite app_nil_r|constructor].
      * exists [(row_counter st + 1, p)%Z]. split; [exact Hout|].
        constructor; [|constructor]. cbn [fst]. split; [exact Hm|lia].
Qed.

End ProgressMore.

(** ** First come, first kept *)

Section FirstKept.

(** X22.  The row that came first stays, as long as the INSERTs carry
    plain values.  Once the INSERT of such a row has gone through,
    executing the statements that a run hands over leaves that row the
    one found for its [parent_id]: later INSERTs for the [parent_id]
    raise, and the UPDATEs raise for want of bindings. *)
Theorem first_insert_is_kept
    (r : row) (t t' : table) (rows : list (gmap string jvalue)) (st : state) :
  plain_row r = true ->
  Forall plain_stmt (enqueued rows st) ->
  execute (INSERT r) t = Some t' ->
  row_for (parent_id r) (execute_all (enqueued rows st) t') = Some r.
Proof.
  cbn [execute]. intros -> Hplain H. apply insert_row_inv in H as (-> & Hp & _).
  apply (row_for_prefix _ (t ++ [r])).
  - apply execute_all_grows. exact Hplain.
  - unfold row_for. apply find_app_fresh; [exact Hp|apply String.eqb_refl].
Qed.

End FirstKept.

(** ** More on the export: the page query *)

Section PagesMore.

Lemma elem_of_insert_by_unix_iff x r l :
  x ∈ insert_by_unix r l <-> x = r \/ x ∈ l.
Proof.
  split; [apply elem_of_insert_by_unix|].
  induction l as [|y l IH]; cbn [insert_by_unix].
  - intros [-> | H]; [left|inversion H].
  - destruct (unix r <? unix y)%Z.
    + intros [-> | H]; [left|right; exact H].
    + intros [-> | H].
      * right. apply IH. now left.
      * apply elem_of_cons in H as [-> | H]; [left|right; apply IH; now right].
Qed.

Lemma elem_of_order_by_unix_iff x l : x ∈ order_by_unix l <-> x ∈ l.
Proof.
  unfold order_by_unix. rewrite <- (elem_of_reverse x l).
  induction (reverse l) as [|y k IH]; cbn [foldr]; [reflexivity|].
  rewrite elem_of_insert_by_unix_iff, IH, elem_of_cons. reflexivity.
Qed.

Lemma length_insert_by_unix r l : length (insert_by_unix r l) = S (length l).
Proof.
  induction l as [|y l IH]; cbn [insert_by_unix]; [reflexivity|].
  destruct (unix r <? unix y)%Z; cbn [length]; [reflexivity|now rewrite IH].
Qed.

Lemma length_order_by_unix l : length (order_by_unix l) = length l.
Proof.
  unfold order_by_unix. rewrite <- (length_reverse l).
  induction (reverse l) as [|y k IH]; cbn [foldr]; [reflexivity|].
  rewrite length_insert_by_unix, IH. reflexivity.
Qed.

Lemma insert_by_unix_ascending r l : ascending l -> ascending (insert_by_unix r l).
Proof.
  induction l as [|y l IH]; cbn [insert_by_unix ascending].
  - intros _. split; [constructor|exact I].
  - intros [Hy Hl]. destruct (Z.ltb_spec (unix r) (unix y)).
    + cbn [ascending]. split; [|split; assumption].
      constructor; [lia|]. eapply Forall_impl; [exact Hy|]. cbn. intros z Hz. lia.
    + cbn [ascending]. split; [|apply IH; exact Hl].
      apply Forall_forall. intros z Hz. apply elem_of_insert_by_unix in Hz as [-> | Hz]; [lia|].
      rewrite Forall_forall in Hy. now apply Hy.
Qed.

Lemma order_by_unix_ascending l : ascending (order_by_unix l).
Proof.
  unfold order_by_unix. induction (reverse l) as [|y k IH]; cbn [foldr]; [exact I|].
  now apply insert_by_unix_ascending.
Qed.

Lemma ascending_app a b :
  ascending (a ++ b) ->
  ascending a /\ ascending b /\ forall x y, x ∈ a -> y ∈ b -> (unix x <= unix y)%Z.
Proof.
  induction a as [|z a IH]; cbn [app ascending].
  - intros H. split; [exact I|]. split; [exact H|]. intros x y Hx. inversion Hx.
  - intros [Hz Ha]. destruct (IH Ha) as (H1 & H2 & H3).
    apply Forall_app in Hz as [Hza Hzb]. split; [split; assumption|]. split; [exact H2|].
    intros x y Hx Hy. apply elem_of_cons in Hx as [-> | Hx]; [|now apply H3].
    rewrite Forall_forall in Hzb. now apply Hzb.
Qed.

Lemma ascending_lookup l : ascending l ->
  forall i j x y, i <= j -> l !! i = Some x -> l !! j = Some y -> (unix x <= unix y)%Z.
Proof.
  induction l as [|z l IH]; intros Hl i j x y Hij Hi Hj; [discriminate|].
  cbn [ascending] in Hl. destruct Hl as [Hz Hl].
  destruct i as [|i]; destruct j as [|j]; cbn in Hi, Hj.
  - injection Hi as <-. injection Hj as <-. lia.
  - injection Hi as <-. rewrite Forall_forall in Hz. apply Hz.
    eapply list_elem_of_lookup_2. exact Hj.
  - lia.
  - apply (IH Hl i j); [lia|assumption|assumption].
Qed.


Lemma read_sql_ascending u n t : ascending (read_sql u n t).
Proof.
  unfold read_sql. set (l := order_by_unix _).
  pose proof (order_by_unix_ascending
                (List.filter (fun r => (u <? unix r)%Z && bool_decide (parent r <> None)
                                       && (0 <? score r)%Z) t)) as H.
  fold l in H. rewrite <- (take_drop n l) in H. now apply ascending_app in H.
Qed.

Lemma qualifies_filter u r :
  ((u <? unix r)%Z && bool_decide (parent r <> None) && (0 <? score r)%Z) = true <->
  qualifies u r.
Proof.
  unfold qualifies. rewrite !andb_true_iff, bool_decide_eq_true, Z.ltb_lt, Z.ltb_lt. tauto.
Qed.

(** X17.  The page query.  A page holds at most [limit] rows, as many
    as the rows of the table that the WHERE clause lets through if these
    are fewer; all its rows are such rows; they come in ascending order of
    [unix]; and a row that the WHERE clause lets through but the page
    leaves out has a [unix] no smaller than any row of the page. *)
Theorem read_sql_page (last_unix : Z) (limit : nat) (t : table) :
  let page := read_sql last_unix limit t in
  length page =
    Nat.min limit
      (length (List.filter (fun r => (last_unix <? unix r)%Z && bool_decide (parent r <> None)
                                     && (0 <? score r)%Z) t)) /\
  (forall x, x ∈ page -> x ∈ t /\ qualifies last_unix x) /\
  (forall i j x y, i <= j -> page !! i = Some x -> page !! j = Some y ->
                   (unix x <= unix y)%Z) /\
  (forall x y, x ∈ page -> y ∈ t -> qualifies last_unix y -> y ∉ page ->
               (unix x <= unix y)%Z).
Proof.
  intros page. split; [|split; [|split]].
  - unfold page, read_sql. now rewrite length_take, length_order_by_unix.
  - intros x Hx. apply elem_of_read_sql in Hx as (H1 & H2 & H3 & H4).
    split; [exact H1|]. repeat split; assumption.
  - apply ascending_lookup. apply read_sql_ascending.
  - intros x y Hx Hy Hq Hny. unfold page, read_sql in Hx, Hny.
    set (l := order_by_unix _) in *.
    assert (Hl : ascending l) by apply order_by_unix_ascending.
    assert (Hyl : y ∈ l).
    { apply elem_of_order_by_unix_iff. apply list_elem_of_In, filter_In.
      split; [now apply list_elem_of_In|]. now apply qualifies_filter. }
    rewrite <- (take_drop limit l) in Hl, Hyl.
    apply ascending_app in Hl as (_ & _ & H).
    apply elem_of_app in Hyl as [Hyl|Hyl]; [contradiction|]. now apply H.
Qed.



End PagesMore.

(** ** More on the export: the loop *)

Section LoopMore.










End LoopMore.

End WithLibrary.

(** ** The properties on sample lines and tables *)

Lemma plain_stmts (l : list sql_stmt) : forallb is_plain l = true -> Forall plain_stmt l.
Proof.
  intros H. apply Forall_forall. intros s Hs.
  apply list_elem_of_In in Hs. rewrite forallb_forall in H. specialize (H s Hs).
  destruct s as [r|u]; cbn [is_plain plain_stmt] in *; [exact H|].
  destruct (bound u); [discriminate H|reflexivity].
Qed.


(** The library that knows the crafted text keeps the keys as well. *)
Lemma keeps_keys_with_upsert : keeps_keys with_upsert.
Proof.
  intros r t t' Hpk. cbn [insert_text with_upsert].
  destruct (bool_decide (r = row_upsert)); [|discriminate].
  unfold execute_upsert, pk_unique in *.
  destruct (existsb (fun x => String.eqb (comment_id x) "t1_c") t).
  - intros [= <-]. rewrite <- list_fmap_compose.
    erewrite list_fmap_ext; [exact Hpk|].
    intros i x _. cbn. destruct (String.eqb (comment_id x) "t1_c"); reflexivity.
  - destruct (existsb (fun x => String.eqb (parent_id x) "t1_q") t) eqn:E; [discriminate|].
    intros [= <-]. rewrite fmap_app. apply NoDup_app. split; [exact Hpk|]. split.
    + intros k Hk Hk'. cbn in Hk'. apply list_elem_of_singleton in Hk'. subst k.
      apply list_elem_of_fmap in Hk as (x & Hx & Hin).
      apply list_elem_of_In in Hin.
      assert (Hex : existsb (fun x => String.eqb (parent_id x) "t1_q") t = true).
      { apply existsb_exists. exists x. split; [exact Hin|]. apply String.eqb_eq. congruence. }
      congruence.
    + cbn. apply NoDup_singleton.
Qed.

Lemma low_score_writes_nothing_witness :
  line_low !! "score" = Some (JInt 1) /\ (1 < 2)%Z /\
  written strict line_low (start [row_hi]) = [] /\
  table_of (final (loop_body strict line_low (start [row_hi]))) = [row_hi] /\
  sql_transaction (final (loop_body strict line_low (start [row_hi]))) = [].
Proof.
  split; [vm_compute; reflexivity|]. split; [lia|].
  apply (low_score_writes_nothing strict line_low 1 (start [row_hi])).
  - vm_compute; reflexivity.
  - lia.
Defined.

Lemma missing_key_ends_run_witness :
  "score" ∈ required_keys /\ line_no_score !! "score" = None /\
  exists e,
    ingest strict (line_no_score :: [line_hello]) (start []) = Raised e (count_row (start [])) /\
    ((exists k, e = KeyError k /\ first_missing line_no_score = Some k /\
                k ∈ required_keys /\ line_no_score !! k = None /\
                (line_no_score !! "parent_id" = None \/
                 forall z, line_no_score !! "body" <> Some (JInt z))) \/
     (e = AttributeError /\ line_no_score !! "parent_id" <> None /\
      exists z, line_no_score !! "body" = Some (JInt z))).
Proof.
  assert (H1 : "score" ∈ required_keys) by (unfold required_keys; set_solver).
  assert (H2 : line_no_score !! "score" = None) by (vm_compute; reflexivity).
  split; [exact H1|]. split; [exact H2|].
  exact (missing_key_ends_run strict line_no_score "score" [line_hello] (start []) H1 H2).
Defined.

(** C2 as stated does not hold: a line without [score] ends the run with
    [KeyError], and the reply after it, which alone would be written, is
    never processed. *)
Lemma missing_key_is_fatal :
  ingest strict [line_no_score; line_hello] (start []) =
    Raised (KeyError "score") (mkState [] [] 1 0 []) /\
  ingest strict [line_hello] (start []) =
    Done (mkState [] [INSERT row_hello] 1 0 []).
Proof. split; vm_compute; reflexivity. Qed.

(** C3 as stated does not hold: after a run over one acceptable reply
    the statement is in the buffer and the table is empty. *)
Lemma no_flush_at_end_of_stream :
  ingest strict [line_hello] (start []) = Done (mkState [] [INSERT row_hello] 1 0 []) /\
  sql_transaction (final (ingest strict [line_hello] (start []))) <> [] /\
  table_of (final (ingest strict [line_hello] (start []))) = [].
Proof. repeat split; try (vm_compute; reflexivity). vm_compute. discriminate. Qed.





Lemma insert_then_lookup_witness :
  plain_row row_child = true /\
  execute strict (INSERT row_child) [row_hello] = Some [row_hello; row_child] /\
  row_for "t1_b" [row_hello; row_child] = Some row_child /\
  (sql_literal "t1_b" = true ->
   find_existing_score strict [row_hello; row_child] "t1_b" = Some 4%Z) /\
  (sql_literal "t1_e" = true ->
   find_parent strict [row_hello; row_child] "t1_e" = Some "hi back").
Proof.
  assert (H0 : plain_row row_child = true) by (vm_compute; reflexivity).
  assert (H : execute strict (INSERT row_child) [row_hello] = Some [row_hello; row_child])
    by (vm_compute; reflexivity).
  split; [exact H0|]. split; [exact H|].
  exact (insert_then_lookup strict row_child [row_hello] [row_hello; row_child] H0 H).
Defined.

Lemma insert_keeps_other_lookups_witness :
  plain_row row_child = true /\ sql_literal "t1_a" = true /\
  execute strict (INSERT row_child) [row_hello] = Some [row_hello; row_child] /\
  ("t1_a" <> "t1_b" ->
   find_existing_score strict [row_hello; row_child] "t1_a" =
   find_existing_score strict [row_hello] "t1_a") /\
  ("t1_a" <> "t1_e" ->
   find_parent strict [row_hello; row_child] "t1_a" = find_parent strict [row_hello] "t1_a").
Proof.
  assert (H0 : plain_row row_child = true) by (vm_compute; reflexivity).
  assert (H1 : sql_literal "t1_a" = true) by (vm_compute; reflexivity).
  assert (H : execute strict (INSERT row_child) [row_hello] = Some [row_hello; row_child])
    by (vm_compute; reflexivity).
  split; [exact H0|]. split; [exact H1|]. split; [exact H|].
  exact (insert_keeps_other_lookups strict row_child [row_hello] [row_hello; row_child] "t1_a"
           H0 H1 H).
Defined.

Lemma lookups_read_the_table_witness :
  sql_literal "t1_a" = true /\
  (forall z, find_existing_score strict [row_hi] "t1_a" = Some z ->
     exists x, x ∈ [row_hi] /\ parent_id x = "t1_a" /\ score x = z) /\
  (forall p, find_parent strict [row_hi] "t1_a" = Some p ->
     exists x, x ∈ [row_hi] /\ comment_id x = "t1_a" /\ comment x = Some p) /\
  (pk_unique [row_hi] ->
   forall x, x ∈ [row_hi] -> parent_id x = "t1_a" ->
             find_existing_score strict [row_hi] "t1_a" = Some (score x)).
Proof.
  assert (H : sql_literal "t1_a" = true) by (vm_compute; reflexivity).
  split; [exact H|].
  exact (lookups_read_the_table strict [row_hi] "t1_a" H).
Defined.

Lemma inserted_row_is_the_line_witness :
  written strict line_child_text_time (start [row_hello]) = [INSERT row_child] /\
  (exists v, line_child_text_time !! "parent_id" = Some v /\ parent_id row_child = text_of v) /\
  (exists v, line_child_text_time !! "name" = Some v /\ comment_id row_child = text_of v) /\
  (exists body, line_child_text_time !! "body" = Some (JStr body) /\
                comment row_child = Some (format_data body) /\
                acceptable (format_data body) = true) /\
  (exists v, line_child_text_time !! "subreddit" = Some v /\ subreddit row_child = text_of v) /\
  (exists v, line_child_text_time !! "created_utc" = Some v /\
             python_int strict v = Some (unix row_child)) /\
  line_child_text_time !! "score" = Some (JInt (score row_child)) /\
  (2 <= score row_child)%Z.
Proof.
  assert (H : written strict line_child_text_time (start [row_hello]) = [INSERT row_child])
    by (vm_compute; reflexivity).
  split; [exact H|].
  exact (inserted_row_is_the_line strict line_child_text_time (start [row_hello]) row_child H).
Defined.

Lemma parent_text_is_a_stored_comment_witness :
  written strict line_child (start [row_hello]) = [INSERT row_child] /\
  "hello" <> "" /\
  find_parent strict [row_hello] "t1_b" = Some "hello" /\
  (sql_literal "t1_b" = true ->
   exists x, x ∈ [row_hello] /\ comment_id x = "t1_b" /\ comment x = Some "hello").
Proof.
  assert (H : written strict line_child (start [row_hello]) = [INSERT row_child])
    by (vm_compute; reflexivity).
  split; [exact H|].
  exact (parent_text_is_a_stored_comment strict line_child (start [row_hello]) row_child H).
Defined.

Lemma not_better_writes_nothing_witness :
  line_hi !! "parent_id" = Some (JStr "t1_a") /\
  line_hi !! "score" = Some (JInt 3) /\
  find_existing_score strict (table_of (start [row_hi])) "t1_a" = Some 3%Z /\
  3%Z <> 0%Z /\ (3 <= 3)%Z /\
  written strict line_hi (start [row_hi]) = [].
Proof.
  assert (H1 : line_hi !! "parent_id" = Some (JStr "t1_a")) by (vm_compute; reflexivity).
  assert (H2 : line_hi !! "score" = Some (JInt 3)) by (vm_compute; reflexivity).
  assert (H3 : find_existing_score strict (table_of (start [row_hi])) "t1_a" = Some 3%Z)
    by (vm_compute; reflexivity).
  assert (H4 : 3%Z <> 0%Z) by lia.
  assert (H5 : (3 <= 3)%Z) by lia.
  repeat (split; [assumption|]).
  exact (not_better_writes_nothing strict line_hi (start [row_hi]) "t1_a" 3 3 H1 H2 H3 H4 H5).
Defined.

Lemma nothing_committed_below_threshold_witness :
  length (sql_transaction (start [])) +
    length (enqueued strict [line_hi; line_hello] (start [])) <= 1000 /\
  table_of (final (ingest strict [line_hi; line_hello] (start []))) = table_of (start []) /\
  sql_transaction (final (ingest strict [line_hi; line_hello] (start []))) =
    sql_transaction (start []) ++ enqueued strict [line_hi; line_hello] (start []).
Proof.
  assert (H : length (sql_transaction (start [])) +
              length (enqueued strict [line_hi; line_hello] (start [])) <= 1000).
  { vm_compute. repeat constructor. }
  split; [exact H|].
  exact (nothing_committed_below_threshold strict [line_hi; line_hello] (start []) H).
Defined.

Lemma stored_rows_pass_the_tests_witness :
  Forall plain_stmt (enqueued strict low_then_high (start [])) /\
  row_hi ∈ table_of (final (ingest strict low_then_high (start []))) /\
  (row_hi ∈ [] \/
   ((2 <= score row_hi)%Z /\
    (exists c, comment row_hi = Some c /\ acceptable c = true /\
               PyStr.has_char PyStr.LF c = false /\ PyStr.has_char PyStr.CR c = false) /\
    parent row_hi <> Some "")).
Proof.
  assert (H0 : Forall plain_stmt (enqueued strict low_then_high (start [])))
    by (apply plain_stmts; vm_compute; reflexivity).
  assert (H : row_hi ∈ table_of (final (ingest strict low_then_high (start [])))).
  { assert (E : table_of (final (ingest strict low_then_high (start []))) = [row_hi])
      by (vm_compute; reflexivity).
    rewrite E. left. }
  split; [exact H0|]. split; [exact H|].
  exact (stored_rows_pass_the_tests strict [] low_then_high row_hi H0 H).
Defined.

Lemma first_insert_is_kept_witness :
  plain_row row_hi = true /\
  Forall plain_stmt (enqueued strict [line_hello; line_hello] (start [row_hi])) /\
  execute strict (INSERT row_hi) [] = Some [row_hi] /\
  row_for (parent_id row_hi)
    (execute_all strict (enqueued strict [line_hello; line_hello] (start [row_hi])) [row_hi]) =
    Some row_hi.
Proof.
  assert (H0 : plain_row row_hi = true) by (vm_compute; reflexivity).
  assert (H1 : Forall plain_stmt (enqueued strict [line_hello; line_hello] (start [row_hi])))
    by (apply plain_stmts; vm_compute; reflexivity).
  assert (H : execute strict (INSERT row_hi) [] = Some [row_hi]) by (vm_compute; reflexivity).
  split; [exact H0|]. split; [exact H1|]. split; [exact H|].
  exact (first_insert_is_kept strict row_hi [] [row_hi] [line_hello; line_hello]
           (start [row_hi]) H0 H1 H).
Defined.
